(** * A shallow embedding of the NLP pipeline orchestrator

    Source: [src/modules/core.py] (the [ProcessorModule] contract and the
    [Pipeline] orchestrator), the grammar module of [src/modules/grammar.py]
    and the [initialize] methods of the modules in [completion.py],
    [sentiment.py], [voice.py] and [summarize.py]; then the adapters that
    drive a pipeline: [process_text] and [create_pipeline] of [src/main.py]
    and the text route of [src/server.py].

    Python objects are modelled as follows.
    - A dynamically typed value is a [PyVal].
    - An exception (an instance of Python's [Exception], the class every
      [except Exception] clause of the source catches) is an [Exn]: its
      class, the text [str(e)] and the exception it was raised [from].
    - A [dict] is insertion ordered: [pydict] keeps the order of first
      insertion, overwrites in place and deletes by key.
    - Code that raises keeps the mutations made before the [raise]: the
      monad [M S] threads the state through both outcomes.
    - A module instance owns its attributes ([self.x = ...]); they live in a
      heap indexed by the identity of the object, so that the registry of a
      pipeline maps a name to a reference, as in Python. A method of a
      module reads and writes the attributes of its own object and nothing
      else: no module of the repository holds a reference to the pipeline
      or to another module. *)

From Stdlib Require Import ZArith.
From stdpp Require Import base option list strings gmap.

Open Scope string_scope.
#[local] Set Warnings "-register-all".

(** ** Values, exceptions, outcomes *)

Inductive PyVal : Type :=
| VNone
| VBool (b : bool)
| VInt (z : Z)
| VFloat (mantissa exponent : Z)
| VStr (s : string)
| VList (xs : list PyVal)
| VDict (kvs : list (string * PyVal))
| VHandle (h : nat).

(** Python truthiness, as used by [not x] and [x or y]. [VFloat m e] is
    the float written [m] times ten to the [e], [VHandle h] an object of a
    library (a client, a loaded model). *)
Definition truthy (v : PyVal) : bool :=
  match v with
  | VNone => false
  | VBool b => b
  | VInt z => negb (Z.eqb z 0)
  | VFloat m _ => negb (Z.eqb m 0)
  | VStr s => negb (bool_decide (s = ""))
  | VList xs => match xs with [] => false | _ => true end
  | VDict kvs => match kvs with [] => false | _ => true end
  | VHandle _ => true
  end.

(** The exception classes the code tells apart. [OtherException cls] is any
    other class that derives from [Exception], and from none of the classes
    named here. *)
Inductive ExnClass : Type :=
| RuntimeError
| ValueError
| ImportError
| ModuleNotFoundError
| LookupError
| KeyError
| IndexError
| OtherException (cls : string).

Inductive Exn : Type :=
| MkExn (cls : ExnClass) (msg : string) (cause : option Exn).

Definition exn_class (e : Exn) : ExnClass := let 'MkExn c _ _ := e in c.
(** [str(e)] *)
Definition exn_str (e : Exn) : string := let 'MkExn _ m _ := e in m.
(** [e.__cause__] *)
Definition exn_cause (e : Exn) : option Exn := let 'MkExn _ _ c := e in c.

(** [isinstance(e, ImportError)]; [ModuleNotFoundError] is its subclass. *)
Definition is_ImportError (e : Exn) : bool :=
  match exn_class e with
  | ImportError | ModuleNotFoundError => true
  | _ => false
  end.

Inductive Outcome (A : Type) : Type :=
| Return (a : A)
| Raise (e : Exn).
Arguments Return {A} a.
Arguments Raise {A} e.

(** ** Insertion-ordered dictionaries with string keys *)

Abbreviation pydict V := (list (string * V)) (only parsing).

Module PyDict.

Definition keys {V} (d : pydict V) : list string := d.*1.
Definition values {V} (d : pydict V) : list V := d.*2.

(** [d.get(k)] *)
Fixpoint get {V} (k : string) (d : pydict V) : option V :=
  match d with
  | [] => None
  | (k', v) :: d' => if decide (k = k') then Some v else get k d'
  end.

(** [k in d] *)
Definition contains {V} (k : string) (d : pydict V) : bool :=
  match get k d with Some _ => true | None => false end.

(** [d[k] = v]: an existing key keeps its position, a new one goes last. *)
Fixpoint set {V} (k : string) (v : V) (d : pydict V) : pydict V :=
  match d with
  | [] => [(k, v)]
  | (k', v') :: d' =>
      if decide (k = k') then (k', v) :: d' else (k', v') :: set k v d'
  end.

(** [del d[k]] (on a key that is present) *)
Fixpoint del {V} (k : string) (d : pydict V) : pydict V :=
  match d with
  | [] => []
  | (k', v') :: d' => if decide (k = k') then d' else (k', v') :: del k d'
  end.
End PyDict.

(** ** State and exceptions *)

Definition M (S A : Type) : Type := S → Outcome A * S.

Definition ret {S A} (a : A) : M S A := λ s, (Return a, s).
Definition raise {S A} (e : Exn) : M S A := λ s, (Raise e, s).
Definition bind {S A B} (m : M S A) (k : A → M S B) : M S B :=
  λ s, match m s with
       | (Return a, s') => k a s'
       | (Raise e, s') => (Raise e, s')
       end.
(** [try: body except Exception as e: handler e] *)
Definition try_except {S A} (body : M S A) (handler : Exn → M S A) : M S A :=
  λ s, match body s with
       | (Return a, s') => (Return a, s')
       | (Raise e, s') => handler e s'
       end.
Definition gets {S A} (f : S → A) : M S A := λ s, (Return (f s), s).
Definition modify {S} (f : S → S) : M S unit := λ s, (Return tt, f s).

Declare Scope py_scope.
Delimit Scope py_scope with py.
Notation "x <- m ;; k" := (bind m (λ x, k))
  (at level 100, m at next level, right associativity) : py_scope.
Notation "m ;;; k" := (bind m (λ _, k))
  (at level 100, right associativity) : py_scope.
Open Scope py_scope.

(** [for x in l: acc = body acc x], with the local variables the loop
    updates passed along as [acc]. An exception leaves the loop. *)
Fixpoint for_each {S A B} (l : list A) (acc : B) (body : B → A → M S B) : M S B :=
  match l with
  | [] => ret acc
  | x :: l' => acc' <- body acc x ;; for_each l' acc' body
  end.

(** ** Logging *)

Inductive Level : Type := DEBUG | INFO | WARNING | ERROR.

(** An f-string is a sequence of literal pieces and formatted values. *)
Inductive Frag : Type :=
| Lit (s : string)
| Fmt (v : PyVal).

Record LogRecord : Type := { lvl : Level; msg : list Frag }.

(** ** The module contract ([class ProcessorModule]) *)

Abbreviation Attrs := (gmap string PyVal) (only parsing).
Abbreviation Config := (gmap string PyVal) (only parsing).
Abbreviation Kwargs := (gmap string PyVal) (only parsing).

(** What a method of a module sees and changes: the attributes of [self]
    and the records it sends to its own logger. *)
Record ModSt : Type := { self_attrs : Attrs; emitted : list LogRecord }.

Record ProcessorModule : Type := {
  obj_id : nat;
  name : string;
  supported_languages : list string;
  initialize : option Config → M ModSt unit;
  process : string → Kwargs → M ModSt PyVal
}.

(** [language in self.supported_languages]: only a [str] equals a [str]. *)
Definition can_process (m : ProcessorModule) (language : PyVal) : bool :=
  match language with
  | VStr s => bool_decide (s ∈ supported_languages m)
  | _ => false
  end.

(** ** The pipeline ([class Pipeline]) *)

Record Pipeline : Type := {
  modules : pydict ProcessorModule;
  config : gmap string Config;
  initialized : bool
}.

Inductive Method : Type := Initialize | CanProcess | Process.

(** What can be observed from outside: the records sent to the logger of
    [core.py], the calls made into a module (its name and identity) and
    the records that module sent to its own logger meanwhile. *)
Inductive Event : Type :=
| Logged (r : LogRecord)
| Called (meth : Method) (module_name : string) (obj : nat)
| ModuleLogged (obj : nat) (r : LogRecord).

Record World : Type := {
  heap : gmap nat Attrs;
  trace : list Event
}.

Record St : Type := { self : Pipeline; world : World }.

(** An object built by a class without [__init__] has no attribute yet. *)
Definition attrs_of (h : gmap nat Attrs) (m : ProcessorModule) : Attrs :=
  default ∅ (h !! obj_id m).

(** The state a method of [m] starts from. *)
Definition enter (h : gmap nat Attrs) (m : ProcessorModule) : ModSt :=
  {| self_attrs := attrs_of h m; emitted := [] |}.

Definition emit (ev : list Event) : M St unit :=
  modify (λ st, {| self := self st;
                   world := {| heap := heap (world st);
                               trace := trace (world st) ++ ev |} |}).

Definition logger (l : Level) (fs : list Frag) : M St unit :=
  emit [Logged {| lvl := l; msg := fs |}].

(** A call [module.meth(...)]: the method runs on the attributes of the
    object; what it wrote and logged is kept, also when it raises. *)
Definition call {A} (meth : Method) (m : ProcessorModule) (f : M ModSt A) : M St A :=
  λ st,
    let '(o, ms) := f (enter (heap (world st)) m) in
    (o, {| self := self st;
           world := {| heap := <[obj_id m := self_attrs ms]> (heap (world st));
                       trace := trace (world st) ++ Called meth (name m) (obj_id m)
                                  :: (ModuleLogged (obj_id m) <$> emitted ms) |} |}).

(** [module.can_process(language)] reads and writes nothing. *)
Definition call_can_process (m : ProcessorModule) (language : PyVal) : M St bool :=
  emit [Called CanProcess (name m) (obj_id m)] ;;; ret (can_process m language).

Definition set_modules (f : pydict ProcessorModule → pydict ProcessorModule) : M St unit :=
  modify (λ st, {| self := {| modules := f (modules (self st));
                              config := config (self st);
                              initialized := initialized (self st) |};
                   world := world st |}).
Definition set_config (c : gmap string Config) : M St unit :=
  modify (λ st, {| self := {| modules := modules (self st);
                              config := c;
                              initialized := initialized (self st) |};
                   world := world st |}).
Definition set_initialized (b : bool) : M St unit :=
  modify (λ st, {| self := {| modules := modules (self st);
                              config := config (self st);
                              initialized := b |};
                   world := world st |}).

(** [Pipeline()] *)
Definition Pipeline_new : M World Pipeline :=
  λ w, (Return {| modules := []; config := ∅; initialized := false |},
        {| heap := heap w;
           trace := trace w ++ [Logged {| lvl := INFO; msg := [Lit "NLP Pipeline created"] |}] |}).

Definition register (module : ProcessorModule) : M St unit :=
  present <- gets (λ st, PyDict.contains (name module) (modules (self st))) ;;
  (if present : bool
   then logger WARNING [Lit "Module '"; Lit (name module);
                        Lit "' is already registered. Overwriting."]
   else ret tt) ;;;
  set_modules (PyDict.set (name module) module) ;;;
  logger INFO [Lit "Registered module: "; Lit (name module)].

Definition unregister (module_name : string) : M St bool :=
  present <- gets (λ st, PyDict.contains module_name (modules (self st))) ;;
  if present : bool
  then set_modules (PyDict.del module_name) ;;;
       logger INFO [Lit "Unregistered module: "; Lit module_name] ;;;
       ret true
  else logger WARNING [Lit "Cannot unregister '"; Lit module_name;
                       Lit "': module not found"] ;;;
       ret false.

(** [self.config.get(name, {})] *)
Definition module_config_of (name : string) : M St Config :=
  gets (λ st, default ∅ (config (self st) !! name)).

(** The body of the loop of [initialize_all]. *)
Definition initialize_step (_ : unit) (item : string * ProcessorModule) : M St unit :=
  let '(name, module) := item in
  try_except
    (module_config <- module_config_of name ;;
     call Initialize module (initialize module (Some module_config)) ;;;
     logger INFO [Lit "Initialized module: "; Lit name])
    (λ e,
       logger ERROR [Lit "Failed to initialize module '"; Lit name; Lit "': ";
                     Lit (exn_str e)] ;;;
       raise (MkExn RuntimeError ("Module initialization failed: " ++ name) (Some e))).

Definition initialize_all (config : option (gmap string Config)) : M St unit :=
  set_config (default ∅ config) ;;;
  items <- gets (λ st, modules (self st)) ;;
  for_each items tt initialize_step ;;;
  set_initialized true ;;;
  logger INFO [Lit "Pipeline initialization complete"].

Definition not_initialized : Exn :=
  MkExn RuntimeError "Pipeline not initialized. Call initialize_all() first." None.

(** [kwargs.get('language', 'en-US')] *)
Definition language_of (kwargs : Kwargs) : PyVal :=
  default (VStr "en-US") (kwargs !! "language").

Definition run_module (module_name : string) (text : string) (kwargs : Kwargs) : M St PyVal :=
  ready <- gets (λ st, initialized (self st)) ;;
  if negb ready then raise not_initialized else
  found <- gets (λ st, PyDict.get module_name (modules (self st))) ;;
  match found with
  | None => raise (MkExn ValueError ("Module '" ++ module_name ++ "' not found in pipeline") None)
  | Some module =>
      let language := language_of kwargs in
      capable <- call_can_process module language ;;
      if negb capable
      then logger WARNING [Lit "Module "; Lit module_name;
                           Lit " doesn't support language '"; Fmt language;
                           Lit "'. Skipping."] ;;;
           ret VNone
      else try_except
             (call Process module (process module text kwargs))
             (λ e,
                logger ERROR [Lit "Error in module '"; Lit module_name; Lit "': ";
                              Lit (exn_str e)] ;;;
                raise e)
  end.

(** [{"error": str(e)}] *)
Definition error_marker (e : Exn) : PyVal := VDict [("error", VStr (exn_str e))].

(** The body of the loop of [run_all]; [results] is the dictionary built
    so far. *)
Definition run_all_step (text : string) (kwargs : Kwargs) (language : PyVal)
    (results : pydict PyVal) (item : string * ProcessorModule) : M St (pydict PyVal) :=
  let '(name, module) := item in
  capable <- call_can_process module language ;;
  if negb capable
  then logger INFO [Lit "Skipping module '"; Lit name;
                    Lit "' that doesn't support language '"; Fmt language; Lit "'"] ;;;
       ret results
  else try_except
         (r <- call Process module (process module text kwargs) ;;
          logger DEBUG [Lit "Successfully ran module: "; Lit name] ;;;
          ret (PyDict.set name r results))
         (λ e,
            logger ERROR [Lit "Error running module '"; Lit name; Lit "': ";
                          Lit (exn_str e)] ;;;
            ret (PyDict.set name (error_marker e) results)).

Definition run_all (text : string) (kwargs : Kwargs) : M St (pydict PyVal) :=
  ready <- gets (λ st, initialized (self st)) ;;
  if negb ready then raise not_initialized else
  let language := language_of kwargs in
  items <- gets (λ st, modules (self st)) ;;
  for_each items [] (run_all_step text kwargs language).

(** ** The concrete modules

    What a module reaches outside the repository (an import, a constructor
    of a client library, the process environment) is a field of its
    environment record: the outcome that call has. *)

Definition setattr (k : string) (v : PyVal) : M ModSt unit :=
  modify (λ ms, {| self_attrs := <[k := v]> (self_attrs ms); emitted := emitted ms |}).

(** [self.k] on an instance of class [cls] *)
Definition getattr (cls k : string) : M ModSt PyVal :=
  λ ms, match self_attrs ms !! k with
        | Some v => (Return v, ms)
        | None => (Raise (MkExn (OtherException "AttributeError")
                            ("'" ++ cls ++ "' object has no attribute '" ++ k ++ "'") None), ms)
        end.

Definition mlog (l : Level) (fs : list Frag) : M ModSt unit :=
  modify (λ ms, {| self_attrs := self_attrs ms;
                   emitted := emitted ms ++ [{| lvl := l; msg := fs |}] |}).

(** A call that leaves the repository. *)
Definition external {S A} (o : Outcome A) : M S A := λ s, (o, s).

(** [config.get(k, d)] *)
Definition config_get (config : Config) (k : string) (d : PyVal) : PyVal :=
  default d (config !! k).

(** [v == s] for a string literal [s] *)
Definition eq_str (v : PyVal) (s : string) : bool :=
  match v with VStr s' => bool_decide (s' = s) | _ => false end.

(** [v in l] for a list of string literals *)
Definition in_strs (v : PyVal) (l : list string) : bool :=
  match v with VStr s => bool_decide (s ∈ l) | _ => false end.

(** [os.environ.get(k)] *)
Definition environ_get (environ : gmap string string) (k : string) : PyVal :=
  match environ !! k with Some s => VStr s | None => VNone end.

Section ConcreteModules.
(** The builtin [str()], which an f-string applies to a value. *)
Variable py_str : PyVal → string.

(** *** [grammar.py] *)

(** A match is an object of the library: each field is what reading that
    attribute does, which depends on the version of the library installed
    (a version without [errorLength] raises [AttributeError] there).
    [replacements], when it can be read, is a list. *)
Record LTMatch : Type := {
  message : Outcome PyVal; offset : Outcome PyVal; errorLength : Outcome PyVal;
  ruleId : Outcome PyVal; replacements : Outcome (list PyVal)
}.

Record GrammarEnv : Type := {
  (** [language_tool_python.LanguageTool(language, remote_server=url)] *)
  LanguageTool : PyVal → PyVal → Outcome PyVal;
  (** [tool.check(text)] *)
  tool_check : PyVal → string → Outcome (list LTMatch);
  (** [language_tool_python.utils.correct(text, matches)] *)
  utils_correct : string → list LTMatch → Outcome string
}.

Definition GrammarChecker_name : string := "grammar".
Definition GrammarChecker_supported_languages : list string :=
  ["en-US"; "en-GB"; "fr-FR"; "de-DE"; "es-ES"; "pt-PT"].

Definition GrammarChecker_initialize (env : GrammarEnv) (config : option Config)
    : M ModSt unit :=
  let config := default ∅ config in
  let language := config_get config "language" (VStr "en-US") in
  setattr "language" language ;;;
  language <-
    (if negb (in_strs language GrammarChecker_supported_languages)
     then mlog WARNING [Lit "Language '"; Fmt language;
                        Lit "' is not supported. Defaulting to 'en-US'."] ;;;
          setattr "language" (VStr "en-US") ;;;
          ret (VStr "en-US")
     else ret language) ;;
  setattr "tool" VNone ;;;
  let server_url := config_get config "server_url" (VStr "http://localhost:8081") in
  setattr "server_url" server_url ;;;
  try_except
    (tool <- external (LanguageTool env language server_url) ;;
     setattr "tool" tool ;;;
     mlog INFO [Lit "GrammarChecker initialized with LanguageTool server at ";
                Fmt server_url; Lit " for language "; Fmt language])
    (λ e,
       mlog ERROR [Lit "Failed to initialize LanguageTool server: "; Lit (exn_str e)] ;;;
       setattr "tool" VNone).

Definition unchecked (text : string) : PyVal :=
  VDict [("issues_count", VInt 0); ("issues", VList []); ("corrected_text", VStr text)].

(** The body of the loop over the matches: the attributes are read in the
    order of the dictionary display, and the dictionary is appended. *)
Definition issue_of (issues : list PyVal) (m : LTMatch) : M ModSt (list PyVal) :=
  msg <- external (message m) ;;
  off <- external (offset m) ;;
  len <- external (errorLength m) ;;
  rule <- external (ruleId m) ;;
  reps <- external (replacements m) ;;
  ret (issues ++ [VDict [("message", msg); ("offset", off); ("length", len);
                         ("rule_id", rule); ("replacements", VList (take 5 reps))]])%list.

Definition GrammarChecker_process (env : GrammarEnv) (text : string) (kwargs : Kwargs)
    : M ModSt PyVal :=
  tool <- getattr "GrammarChecker" "tool" ;;
  if negb (truthy tool)
  then mlog WARNING [Lit "GrammarChecker is not initialized. Returning text without checks."] ;;;
       ret (unchecked text)
  else try_except
         (matches <- external (tool_check env tool text) ;;
          issues <- for_each matches [] issue_of ;;
          corrected_text <- external (utils_correct env text matches) ;;
          ret (VDict [("issues_count", VInt (Z.of_nat (length issues)));
                      ("issues", VList issues);
                      ("corrected_text", VStr corrected_text)]))
         (λ e,
            mlog ERROR [Lit "Error during grammar checking: "; Lit (exn_str e)] ;;;
            ret (unchecked text)).

(** The instance [GrammarChecker()] with identity [id]. *)
Definition GrammarChecker (env : GrammarEnv) (id : nat) : ProcessorModule :=
  {| obj_id := id;
     name := GrammarChecker_name;
     supported_languages := GrammarChecker_supported_languages;
     initialize := GrammarChecker_initialize env;
     process := GrammarChecker_process env |}.

(** *** [completion.py] *)

Record CompletionEnv : Type := {
  (** [os.environ], after [load_dotenv("credintials.env")] *)
  completion_environ : gmap string string;
  (** [from openai import OpenAI] *)
  import_openai : Outcome unit;
  (** [OpenAI(base_url=..., api_key=...)] *)
  OpenAI : PyVal → PyVal → Outcome PyVal;
  (** [from transformers import AutoModelForCausalLM, AutoTokenizer] *)
  completion_import_transformers : Outcome unit;
  (** [import torch] *)
  completion_import_torch : Outcome unit;
  (** [AutoTokenizer.from_pretrained(model_name)] *)
  completion_AutoTokenizer : PyVal → Outcome PyVal;
  (** [AutoModelForCausalLM.from_pretrained(model_name)] *)
  AutoModelForCausalLM : PyVal → Outcome PyVal;
  (** [torch.cuda.is_available()] *)
  cuda_is_available : Outcome bool;
  (** [model.to("cuda")] *)
  model_to_cuda : PyVal → Outcome PyVal
}.

Definition TextCompletion_name : string := "completion".
Definition TextCompletion_supported_languages : list string :=
  ["en-US"; "en-GB"; "fr-FR"; "de-DE"; "es-ES"; "it-IT"; "pt-PT"; "ru-RU"; "zh-CN"; "ja-JP"].

Definition TextCompletion_initialize (env : CompletionEnv) (config : option Config)
    : M ModSt unit :=
  let config := default ∅ config in
  let provider := config_get config "provider" (VStr "nvidia") in
  setattr "provider" provider ;;;
  let model_name := config_get config "model_name"
                      (VStr "nv-mistralai/mistral-nemo-12b-instruct") in
  setattr "model_name" model_name ;;;
  let api_key := config_get config "api_key"
                   (environ_get (completion_environ env) "NVIDIA_API_KEY") in
  setattr "api_key" api_key ;;;
  setattr "max_tokens" (config_get config "max_tokens" (VInt 100)) ;;;
  let base_url := config_get config "base_url" (VStr "https://integrate.api.nvidia.com/v1") in
  setattr "base_url" base_url ;;;
  setattr "temperature" (config_get config "temperature" (VFloat 2 (-1))) ;;;
  setattr "top_p" (config_get config "top_p" (VFloat 7 (-1))) ;;;
  setattr "stream" (config_get config "stream" (VBool false)) ;;;
  setattr "client" VNone ;;;
  setattr "model" VNone ;;;
  try_except
    (if eq_str provider "nvidia" then
       external (import_openai env) ;;;
       (if negb (truthy api_key)
        then raise (MkExn ValueError "Nvidia API key is required" None)
        else ret tt) ;;;
       client <- external (OpenAI env base_url api_key) ;;
       setattr "client" client ;;;
       mlog INFO [Lit "Nvidia client initialized with model "; Fmt model_name]
     else if eq_str provider "huggingface" then
       external (completion_import_transformers env) ;;;
       external (completion_import_torch env) ;;;
       mlog INFO [Lit "Loading HuggingFace model: "; Fmt model_name] ;;;
       tokenizer <- external (completion_AutoTokenizer env model_name) ;;
       setattr "tokenizer" tokenizer ;;;
       model <- external (AutoModelForCausalLM env model_name) ;;
       setattr "model" model ;;;
       cuda <- external (cuda_is_available env) ;;
       (if cuda : bool
        then moved <- external (model_to_cuda env model) ;;
             setattr "model" moved ;;;
             mlog INFO [Lit "Model moved to GPU"]
        else ret tt) ;;;
       mlog INFO [Lit "HuggingFace model loaded successfully"]
     else
       raise (MkExn ValueError ("Unknown provider: " ++ py_str provider) None))
    (λ e,
       if is_ImportError e
       then (if eq_str provider "nvidia"
             then mlog ERROR [Lit "Cannot import OpenAI library. Install with: pip install openai"]
             else mlog ERROR [Lit "Cannot import transformers. Install with: pip install transformers torch"]) ;;;
            raise e
       else mlog ERROR [Lit "Failed to initialize text completion: "; Lit (exn_str e)] ;;;
            raise (MkExn RuntimeError
                     ("Could not initialize text completion: " ++ exn_str e) (Some e))).

(** *** [sentiment.py] *)


Definition SentimentAnalyzer_name : string := "sentiment".
Definition SentimentAnalyzer_supported_languages : list string := ["en-US"; "en-GB"].

(** [isinstance(e, LookupError)]; [KeyError] and [IndexError] are its
    subclasses. *)
Definition is_LookupError (e : Exn) : bool :=
  match exn_class e with
  | LookupError | KeyError | IndexError => true
  | _ => false
  end.


(** *** [voice.py] *)


Definition VoiceToText_name : string := "voice".
Definition VoiceToText_supported_languages : list string :=
  ["en-US"; "en-GB"; "fr-FR"; "de-DE"; "es-ES"; "ja-JP"; "zh-CN"].


(** *** [summarize.py] *)


Definition Summarizer_name : string := "summarize".
Definition Summarizer_supported_languages : list string := ["en-US"; "en-GB"].

End ConcreteModules.

(** ** Vocabulary of the statements *)

(** The registry of a pipeline that is only changed through [register] and
    [unregister]: a name occurs once, and the key of a module is its name. *)
Definition registry_ok (p : Pipeline) : Prop :=
  NoDup (PyDict.keys (modules p)) ∧ Forall (λ item, item.1 = name item.2) (modules p).

(** No object is registered twice. *)
Definition distinct_objects (p : Pipeline) : Prop :=
  NoDup (obj_id <$> PyDict.values (modules p)).

(** The public operations, and a pipeline driven through a sequence of
    them, whatever each returns or raises. *)
Inductive Op : Type :=
| Op_register (module : ProcessorModule)
| Op_unregister (module_name : string)
| Op_initialize_all (config : option (gmap string Config))
| Op_run_module (module_name text : string) (kwargs : Kwargs)
| Op_run_all (text : string) (kwargs : Kwargs).

Definition exec (st : St) (o : Op) : St :=
  match o with
  | Op_register m => (register m st).2
  | Op_unregister n => (unregister n st).2
  | Op_initialize_all c => (initialize_all c st).2
  | Op_run_module n t k => (run_module n t k st).2
  | Op_run_all t k => (run_all t k st).2
  end.

Definition run_ops (ops : list Op) (st : St) : St := foldl exec st ops.

(** The state right after [Pipeline()] in world [w]. *)
Definition fresh (w : World) : St :=
  let '(_, w') := Pipeline_new w in
  {| self := {| modules := []; config := ∅; initialized := false |}; world := w' |}.

(** The names of the modules a stretch of the trace calls [meth] on, in
    the order of the calls. *)
Definition called (meth : Method) (evs : list Event) : list string :=
  omap (λ ev, match ev with
              | Called meth' n _ =>
                  match meth, meth' with
                  | Initialize, Initialize | CanProcess, CanProcess | Process, Process => Some n
                  | _, _ => None
                  end
              | _ => None
              end) evs.

(** What [run_all] stores for a module whose attributes are those of [h]. *)
Definition entry_of (text : string) (kwargs : Kwargs) (h : gmap nat Attrs)
    (m : ProcessorModule) : PyVal :=
  match (process m text kwargs (enter h m)).1 with
  | Return r => r
  | Raise e => error_marker e
  end.

(** The modules of a registry that support [language]. *)
Definition capable (language : PyVal) (d : pydict ProcessorModule) : pydict ProcessorModule :=
  filter (λ item, can_process item.2 language = true) d.

(** An outcome that is a return. *)
Definition is_return {A} (o : Outcome A) : bool :=
  match o with Return _ => true | Raise _ => false end.

(** How an [initialize] of [completion.py], [sentiment.py], [voice.py] or
    [summarize.py] fails: an [ImportError] is raised again as it is, any
    other exception [e0] is wrapped in a [RuntimeError] whose text is
    [label] followed by [str(e0)]. *)
Definition init_error (label : string) (e : Exn) : Prop :=
  is_ImportError e = true ∨
  ∃ e0, is_ImportError e0 = false ∧ e = MkExn RuntimeError (label ++ exn_str e0) (Some e0).

(** The language [GrammarChecker.initialize] settles on. *)
Definition GrammarChecker_language (config : option Config) : PyVal :=
  let language := config_get (default ∅ config) "language" (VStr "en-US") in
  if in_strs language GrammarChecker_supported_languages then language else VStr "en-US".





(** [initialize] returns exactly when [ready] holds, and fails as
    [init_error] says otherwise. *)
Definition fails_unless (ready : bool) (label : string) (r : Outcome unit * ModSt) : Prop :=
  match r.1 with
  | Return _ => ready = true
  | Raise e => ready = false ∧ init_error label e
  end.

(** A LanguageTool server that cannot be reached. *)
Definition unreachable : GrammarEnv :=
  {| LanguageTool := λ _ _, Raise (MkExn (OtherException "ConnectionError")
                                     "Connection refused" None);
     tool_check := λ _ _, Return [];
     utils_correct := λ text _, Return text |}.

(** Every attribute [GrammarChecker.process] reads of the match [m] can be
    read, and [issue] is the entry it builds from what was read. *)
Definition issue_read (m : LTMatch) (issue : PyVal) : Prop :=
  ∃ (msg off len rule : PyVal) (reps : list PyVal),
    message m = Return msg ∧ offset m = Return off ∧ errorLength m = Return len ∧
    ruleId m = Return rule ∧ replacements m = Return reps ∧
    issue = VDict [("message", msg); ("offset", off); ("length", len);
                   ("rule_id", rule); ("replacements", VList (take 5 reps))].


(** A LanguageTool server that finds one match, with seven replacements. *)
Definition one_match : GrammarEnv :=
  {| LanguageTool := λ _ _, Return (VHandle 1);
     tool_check := λ _ _,
       Return [{| message := Return (VStr "Possible spelling mistake found.");
                  offset := Return (VInt 0);
                  errorLength := Return (VInt 4);
                  ruleId := Return (VStr "MORFOLOGIK_RULE_EN_US");
                  replacements :=
                    Return [VStr "hello"; VStr "help"; VStr "held"; VStr "hell";
                            VStr "helm"; VStr "hole"; VStr "halo"] |}];
     utils_correct := λ _ _, Return "hello" |}.

(** An operation that writes no attribute of the pipeline object. *)
Definition keeps_self {A} (m : M St A) : Prop := ∀ st, self (m st).2 = self st.

Create HintDb frame.

(** ** Modules used to run the model *)

Module Demo.
Definition empty_world : World := {| heap := ∅; trace := [] |}.

(** A module whose [initialize] records its configuration and whose
    [process] returns the text. *)
Definition echo (id : nat) (nm : string) (langs : list string) : ProcessorModule :=
  {| obj_id := id; name := nm; supported_languages := langs;
     initialize := λ c, setattr "ready" (VBool true);
     process := λ text _, ret (VDict [("text", VStr text)]) |}.

(** A module whose [process] raises [RuntimeError("boom")]. *)
Definition boom (id : nat) (nm : string) (langs : list string) : ProcessorModule :=
  {| obj_id := id; name := nm; supported_languages := langs;
     initialize := λ c, setattr "ready" (VBool true);
     process := λ _ _, setattr "calls" (VInt 1) ;;; raise (MkExn RuntimeError "boom" None) |}.

(** A module whose [initialize] raises after it has written an attribute. *)
Definition broken (id : nat) (nm : string) (langs : list string) : ProcessorModule :=
  {| obj_id := id; name := nm; supported_languages := langs;
     initialize := λ c, setattr "half" (VBool true) ;;;
                        raise (MkExn ValueError "no credential" None);
     process := λ text _, ret (VStr text) |}.

Definition a := echo 1 "a" ["en-US"].
Definition b := echo 2 "b" ["fr-FR"].
Definition x := boom 3 "x" ["en-US"].
Definition bad := broken 4 "bad" ["en-US"].

(** A module whose [process] raises [ValueError("cannot parse input")]. *)
Definition fussy : ProcessorModule :=
  {| obj_id := 5; name := "fussy"; supported_languages := ["en-US"];
     initialize := λ c, ret tt;
     process := λ _ _, raise (MkExn ValueError "cannot parse input" None) |}.

Definition pipeline_of (ms : pydict ProcessorModule) (ready : bool) : St :=
  {| self := {| modules := ms; config := ∅; initialized := ready |};
     world := empty_world |}.
End Demo.

(** ** The adapters: [main.py] and the text route of [server.py]

    Each adapter has a logger of its own; its records are kept beside the
    state of the pipeline it drives. *)

Record App : Type := { app_log : list LogRecord; pipe : St }.

(** A call into the pipeline. *)
Definition in_pipeline {A} (m : M St A) : M App A :=
  λ a, let '(o, st') := m (pipe a) in (o, {| app_log := app_log a; pipe := st' |}).

Definition app_logger (l : Level) (fs : list Frag) : M App unit :=
  modify (λ a, {| app_log := app_log a ++ [{| lvl := l; msg := fs |}]; pipe := pipe a |}).

(** How a function that may call [sys.exit] ends. *)
Inductive Ended (A : Type) : Type :=
| Returned (a : A)
| Raised (e : Exn)
| Exited (code : Z).
Arguments Returned {A} a.
Arguments Raised {A} e.
Arguments Exited {A} code.

Module Main.
(** [process_text(pipeline, text, language)] *)
Definition process_text (text : string) (language : PyVal) : M App (pydict PyVal) :=
  try_except
    (in_pipeline (run_all text {["language" := language]}))
    (λ e,
       app_logger ERROR [Lit "Error processing text: "; Lit (exn_str e)] ;;;
       ret [("error", VStr (exn_str e))]).

(** What [create_pipeline] reads of the mapping loaded from the YAML file:
    the list of names under ["enabled_modules"] and the mapping under
    ["modules"], each possibly absent. *)
Record Settings : Type := {
  enabled_modules : option (list string);
  module_settings : option (gmap string (gmap string PyVal))
}.

Definition default_enabled_modules : list string :=
  ["grammar"; "sentiment"; "voice"; "completion"].

Definition module_info : pydict (string * string) :=
  [("grammar", ("modules.grammar", "GrammarChecker"));
   ("sentiment", ("modules.sentiment", "SentimentAnalyzer"));
   ("voice", ("modules.voice", "VoiceToText"));
   ("completion", ("modules.completion", "TextCompletion"))].

(** The body of the loop of [create_pipeline]. [load mod_path class_name]
    is [importlib.import_module(mod_path)], [getattr(mod, class_name)] and
    the construction [cls()]. *)
Definition load_step (load : string → string → Outcome ProcessorModule)
    (_ : unit) (mod_name : string) : M App unit :=
  match PyDict.get mod_name module_info with
  | Some (mod_path, class_name) =>
      try_except
        (instance <- external (load mod_path class_name) ;;
         in_pipeline (register instance) ;;;
         app_logger INFO [Lit "Registered module: "; Lit mod_name])
        (λ e,
           app_logger ERROR [Lit "Failed to load/register module "; Lit mod_name;
                             Lit ": "; Lit (exn_str e)])
  | None =>
      app_logger WARNING [Lit "Module "; Lit mod_name;
                          Lit " not recognized and will be skipped."]
  end.

(** [create_pipeline(config)], run with the records [log] already sent to
    the logger of [main.py] and in the world [w]. The pipeline it returns is
    the [self] of the state it ends in. *)
Definition create_pipeline (load : string → string → Outcome ProcessorModule)
    (config : Settings) (log : list LogRecord) (w : World) : Ended Pipeline * App :=
  let a0 := {| app_log := log; pipe := fresh w |} in
  match for_each (default default_enabled_modules (enabled_modules config)) tt
          (load_step load) a0 with
  | (Raise e, a1) => (Raised e, a1)
  | (Return _, a1) =>
      match in_pipeline (initialize_all (Some (default ∅ (module_settings config)))) a1 with
      | (Return _, a2) => (Returned (self (pipe a2)), a2)
      | (Raise e, a2) =>
          (Exited 1,
           (app_logger ERROR [Lit "Failed to initialize pipeline: "; Lit (exn_str e)] a2).2)
      end
  end.




End Main.

Module Server.
(** The body of a request to [/api/process]: a JSON object whose ["text"],
    when present, is a string, whose ["modules"], when present, is a list of
    strings, and whose ["language"] is any value. *)
Record Request : Type := {
  req_text : option string;
  req_language : option PyVal;
  req_modules : option (list string)
}.

(** A response: the body and the status code. *)
Definition Response : Type := PyVal * Z.

Section Routes.
(** [flask.jsonify], which raises on a value it cannot serialize. *)
Variable jsonify : PyVal → Outcome PyVal.

(** [return jsonify(body), status] *)
Definition respond (body : PyVal) (status : Z) : M App Response :=
  b <- external (jsonify body) ;; ret (b, status).

(** The body of the loop over the requested modules. *)
Definition select_step (text : string) (language : PyVal)
    (results : pydict PyVal) (module_name : string) : M App (pydict PyVal) :=
  present <- in_pipeline (gets (λ st, PyDict.contains module_name (modules (self st)))) ;;
  if present : bool
  then r <- in_pipeline (run_module module_name text {["language" := language]}) ;;
       ret (PyDict.set module_name r results)
  else ret (PyDict.set module_name
              (VDict [("error", VStr ("Module " ++ module_name ++ " not found"))]) results).

(** [process_text()], once [start_server] has bound [global_pipeline] to
    the pipeline (an object, which is always true). *)
Definition process_text (data : Request) : M App Response :=
  match req_text data with
  | None => respond (VDict [("error", VStr "No text provided")]) 400
  | Some text =>
      let language := default (VStr "en-US") (req_language data) in
      try_except
        (results <-
           match req_modules data with
           | Some (n :: ns) => for_each (n :: ns) [] (select_step text language)
           | _ => in_pipeline (run_all text {["language" := language]})
           end ;;
         respond (VDict results) 200)
        (λ e,
           app_logger ERROR [Lit "Error processing text: "; Lit (exn_str e)] ;;;
           respond (VDict [("error", VStr (exn_str e))]) 500)
  end.
End Routes.
End Server.

(** * Properties *)

#[local] Open Scope list_scope.

(** ** Dictionaries *)

Section PyDictFacts.
Context {V : Type}.
Implicit Types (d : pydict V) (k : string) (v : V).

Lemma get_None k d : PyDict.get k d = None ↔ k ∉ PyDict.keys d.
Proof.
  unfold PyDict.keys. induction d as [|[k' v'] d IH]; simpl.
  - split; [intros _; apply not_elem_of_nil | done].
  - rewrite not_elem_of_cons. destruct (decide (k = k')) as [->|Hne].
    + split; [done | intros [? _]; done].
    + rewrite IH. tauto.
Qed.

Lemma contains_true k d : PyDict.contains k d = true ↔ k ∈ PyDict.keys d.
Proof.
  unfold PyDict.contains. destruct (PyDict.get k d) eqn:E.
  - split; [intros _ | done]. destruct (decide (k ∈ PyDict.keys d)) as [|Hn]; [done|].
    apply get_None in Hn. congruence.
  - apply get_None in E. split; [done | intros; contradiction].
Qed.

Lemma contains_false k d : PyDict.contains k d = false ↔ k ∉ PyDict.keys d.
Proof.
  rewrite <- contains_true. destruct (PyDict.contains k d); naive_solver.
Qed.

Lemma get_set_eq k v d : PyDict.get k (PyDict.set k v d) = Some v.
Proof.
  induction d as [|[k' v'] d IH]; simpl.
  - by rewrite decide_True.
  - destruct (decide (k = k')) as [->|Hne]; simpl.
    + by rewrite decide_True.
    + by rewrite decide_False.
Qed.

Lemma get_set_ne k k' v d : k ≠ k' → PyDict.get k' (PyDict.set k v d) = PyDict.get k' d.
Proof.
  intros Hne. induction d as [|[k0 v0] d IH]; simpl.
  - by rewrite decide_False.
  - destruct (decide (k = k0)) as [->|Hne0]; simpl.
    + by rewrite !decide_False.
    + by rewrite IH.
Qed.

Lemma set_absent k v d : k ∉ PyDict.keys d → PyDict.set k v d = (d ++ [(k, v)])%list.
Proof.
  unfold PyDict.keys. induction d as [|[k' v'] d IH]; simpl; [done|].
  rewrite not_elem_of_cons. intros [Hne Hnin].
  rewrite decide_False by done. by rewrite IH.
Qed.

Lemma keys_set_present k v d :
  k ∈ PyDict.keys d → PyDict.keys (PyDict.set k v d) = PyDict.keys d.
Proof.
  unfold PyDict.keys. induction d as [|[k' v'] d IH]; simpl.
  - intros H. by apply elem_of_nil in H.
  - intros H. destruct (decide (k = k')) as [->|Hne]; simpl; [done|].
    apply elem_of_cons in H as [?|H]; [done|]. f_equal. by apply IH.
Qed.

Lemma NoDup_keys_set k v d :
  NoDup (PyDict.keys d) → NoDup (PyDict.keys (PyDict.set k v d)).
Proof.
  intros Hnd. destruct (decide (k ∈ PyDict.keys d)) as [Hin|Hnin].
  - by rewrite keys_set_present.
  - rewrite set_absent by done. unfold PyDict.keys in *. rewrite fmap_app. simpl.
    apply NoDup_app. split_and!; [done | | apply NoDup_singleton].
    intros k' Hk' ->%list_elem_of_singleton. done.
Qed.

Lemma del_absent k d : k ∉ PyDict.keys d → PyDict.del k d = d.
Proof.
  unfold PyDict.keys. induction d as [|[k' v'] d IH]; simpl; [done|].
  rewrite not_elem_of_cons. intros [Hne Hnin].
  rewrite decide_False by done. by rewrite IH.
Qed.

Lemma keys_del_sublist k d : sublist (PyDict.keys (PyDict.del k d)) (PyDict.keys d).
Proof.
  unfold PyDict.keys. induction d as [|[k' v'] d IH]; simpl; [done|].
  destruct (decide (k = k')); simpl.
  - by apply sublist_cons.
  - by apply sublist_skip.
Qed.

Lemma del_sublist k d : sublist (PyDict.del k d) d.
Proof.
  induction d as [|[k' v'] d IH]; simpl; [done|].
  destruct (decide (k = k')); simpl.
  - by apply sublist_cons.
  - by apply sublist_skip.
Qed.

Lemma get_del_eq k d : NoDup (PyDict.keys d) → PyDict.get k (PyDict.del k d) = None.
Proof.
  unfold PyDict.keys. induction d as [|[k' v'] d IH]; simpl; [done|].
  intros [Hnin Hnd]%NoDup_cons. destruct (decide (k = k')) as [->|Hne]; simpl.
  - by apply get_None.
  - rewrite decide_False by done. by apply IH.
Qed.

Lemma get_del_ne k k' d : k ≠ k' → PyDict.get k' (PyDict.del k d) = PyDict.get k' d.
Proof.
  intros Hne. induction d as [|[k0 v0] d IH]; simpl; [done|].
  destruct (decide (k = k0)) as [->|Hne0]; simpl.
  - by rewrite decide_False.
  - by rewrite IH.
Qed.

Lemma elem_of_get k v d : NoDup (PyDict.keys d) → (k, v) ∈ d → PyDict.get k d = Some v.
Proof.
  unfold PyDict.keys. induction d as [|[k' v'] d IH]; simpl.
  - intros _ H. by apply elem_of_nil in H.
  - intros [Hnin Hnd]%NoDup_cons [H|H]%elem_of_cons.
    + simplify_eq. by rewrite decide_True.
    + rewrite decide_False; [by apply IH|].
      intros ->. apply Hnin. apply list_elem_of_fmap. by exists (k', v).
Qed.

Lemma get_elem_of k v d : PyDict.get k d = Some v → (k, v) ∈ d.
Proof.
  induction d as [|[k' v'] d IH]; simpl; [done|].
  destruct (decide (k = k')) as [->|Hne].
  - intros [= ->]. apply elem_of_cons. by left.
  - intros H. apply elem_of_cons. right. by apply IH.
Qed.
End PyDictFacts.

(** ** The monad *)

Lemma for_each_cons {S A B} (x : A) (l : list A) (acc : B) (body : B → A → M S B) (s : S) :
  for_each (x :: l) acc body s =
  match body acc x s with
  | (Return acc', s') => for_each l acc' body s'
  | (Raise e, s') => (Raise e, s')
  end.
Proof. reflexivity. Qed.

Lemma for_each_app {S A B} (l1 l2 : list A) (acc : B) (body : B → A → M S B) (s : S) :
  for_each (l1 ++ l2) acc body s =
  match for_each l1 acc body s with
  | (Return acc', s') => for_each l2 acc' body s'
  | (Raise e, s') => (Raise e, s')
  end.
Proof.
  revert acc s. induction l1 as [|x l1 IH]; intros acc s; simpl; [done|].
  unfold bind. destruct (body acc x s) as [[acc'|e] s']; [apply IH | done].
Qed.

Lemma called_app meth (evs1 evs2 : list Event) :
  called meth (evs1 ++ evs2) = (called meth evs1 ++ called meth evs2)%list.
Proof. apply omap_app. Qed.

(** ** Operations that leave the pipeline object alone *)

Lemma keeps_self_ret {A} (a : A) : keeps_self (ret a).
Proof. done. Qed.

Lemma keeps_self_raise {A} (e : Exn) : keeps_self (@raise St A e).
Proof. done. Qed.

Lemma keeps_self_gets {A} (f : St → A) : keeps_self (gets f).
Proof. done. Qed.

Lemma keeps_self_emit evs : keeps_self (emit evs).
Proof. done. Qed.

Lemma keeps_self_logger l fs : keeps_self (logger l fs).
Proof. done. Qed.

Lemma keeps_self_call {A} meth m (f : M ModSt A) : keeps_self (call meth m f).
Proof. intros st. unfold call. by destruct (f _). Qed.

Lemma keeps_self_bind {A B} (m : M St A) (k : A → M St B) :
  keeps_self m → (∀ a, keeps_self (k a)) → keeps_self (bind m k).
Proof.
  intros Hm Hk st. unfold bind. specialize (Hm st).
  destruct (m st) as [[a|e] st']; simpl in *; [|done].
  by rewrite Hk.
Qed.

Lemma keeps_self_try_except {A} (body : M St A) (handler : Exn → M St A) :
  keeps_self body → (∀ e, keeps_self (handler e)) → keeps_self (try_except body handler).
Proof.
  intros Hb Hh st. unfold try_except. specialize (Hb st).
  destruct (body st) as [[a|e] st']; simpl in *; [done|].
  by rewrite Hh.
Qed.

Lemma keeps_self_if {A} (b : bool) (m1 m2 : M St A) :
  keeps_self m1 → keeps_self m2 → keeps_self (if b then m1 else m2).
Proof. by destruct b. Qed.

Lemma keeps_self_for_each {A B} (l : list A) (acc : B) (body : B → A → M St B) :
  (∀ acc x, keeps_self (body acc x)) → keeps_self (for_each l acc body).
Proof.
  intros Hbody. revert acc. induction l as [|x l IH]; intros acc; simpl.
  - apply keeps_self_ret.
  - apply keeps_self_bind; [apply Hbody | intros; apply IH].
Qed.

#[local] Hint Resolve keeps_self_ret keeps_self_raise keeps_self_gets keeps_self_emit
  keeps_self_logger keeps_self_call keeps_self_bind keeps_self_try_except
  keeps_self_if keeps_self_for_each : frame.

Lemma keeps_self_call_can_process m language : keeps_self (call_can_process m language).
Proof. unfold call_can_process. auto with frame. Qed.
#[local] Hint Resolve keeps_self_call_can_process : frame.

Lemma keeps_self_run_all_step text kwargs language results item :
  keeps_self (run_all_step text kwargs language results item).
Proof. destruct item as [k m]. unfold run_all_step. auto 10 with frame. Qed.
#[local] Hint Resolve keeps_self_run_all_step : frame.

Lemma keeps_self_run_module module_name text kwargs :
  keeps_self (run_module module_name text kwargs).
Proof.
  unfold run_module. apply keeps_self_bind; [auto with frame|]. intros ready.
  apply keeps_self_if; [auto with frame|].
  apply keeps_self_bind; [auto with frame|]. intros [m|]; auto 10 with frame.
Qed.

Lemma keeps_self_run_all text kwargs : keeps_self (run_all text kwargs).
Proof.
  unfold run_all. apply keeps_self_bind; [auto with frame|]. intros ready.
  apply keeps_self_if; auto 10 with frame.
Qed.

(** C10. [run_module] and [run_all] never write an attribute of the
    pipeline: [modules], [config] and [initialized] are the same object
    state after the call as before it, whatever the call returns (a result,
    the skip value [None], a mapping with error markers) and also when it
    raises. *)
Theorem run_leaves_pipeline_unchanged (st : St) (module_name text : string) (kwargs : Kwargs) :
  self (run_module module_name text kwargs st).2 = self st ∧
  self (run_all text kwargs st).2 = self st.
Proof. split; [apply keeps_self_run_module | apply keeps_self_run_all]. Qed.

(** ** The guard on [initialized] *)

(** C4. On a pipeline whose [initialized] flag is false, [run_all] and
    [run_module] raise the "Pipeline not initialized" [RuntimeError] and
    leave the whole state as it was: nothing is logged, no module is asked
    [can_process], no [process] runs, no result is returned. *)
Theorem run_requires_initialized (st : St) (module_name text : string) (kwargs : Kwargs) :
  initialized (self st) = false →
  run_all text kwargs st = (Raise not_initialized, st) ∧
  run_module module_name text kwargs st = (Raise not_initialized, st).
Proof.
  intros Hinit. unfold run_all, run_module, bind, gets, raise. by rewrite Hinit.
Qed.

Lemma run_requires_initialized_witness :
  let st := Demo.pipeline_of [("a", Demo.a); ("x", Demo.x)] false in
  initialized (self st) = false ∧
  run_all "hello" ∅ st = (Raise not_initialized, st) ∧
  run_module "a" "hello" ∅ st = (Raise not_initialized, st).
Proof.
  split; [reflexivity|].
  apply (run_requires_initialized
           (Demo.pipeline_of [("a", Demo.a); ("x", Demo.x)] false)).
  reflexivity.
Defined.

(** ** [run_module] *)

(** C5. On an initialized pipeline, [run_module] reads [language] from the
    keyword options: it is the value of the option ["language"] when there
    is one, and ["en-US"] when the option is absent. When the module
    registered under the name does not support that language the call
    returns [None]: it does not raise, and the only things that happen are
    the [can_process] question and one warning record; [process] does not
    run and no attribute of the module changes. *)
Theorem run_module_skips_unsupported_language
    (st : St) (m : ProcessorModule) (text : string) (kwargs : Kwargs) (language : PyVal) :
  initialized (self st) = true →
  PyDict.get (name m) (modules (self st)) = Some m →
  language = match kwargs !! "language" with Some v => v | None => VStr "en-US" end →
  can_process m language = false →
  run_module (name m) text kwargs st =
    (Return VNone,
     {| self := self st;
        world := {| heap := heap (world st);
                    trace := trace (world st) ++
                      [Called CanProcess (name m) (obj_id m);
                       Logged {| lvl := WARNING;
                                 msg := [Lit "Module "; Lit (name m);
                                         Lit " doesn't support language '";
                                         Fmt language;
                                         Lit "'. Skipping."] |}] |} |}) ∧
  called Process (drop (length (trace (world st)))
                    (trace (world (run_module (name m) text kwargs st).2))) = [].
Proof.
  intros Hinit Hget Hlang Hcan.
  assert (Hread : language_of kwargs = language).
  { subst language. unfold language_of. by destruct (kwargs !! "language"). }
  assert (Hrun : run_module (name m) text kwargs st =
    (Return VNone,
     {| self := self st;
        world := {| heap := heap (world st);
                    trace := trace (world st) ++
                      [Called CanProcess (name m) (obj_id m);
                       Logged {| lvl := WARNING;
                                 msg := [Lit "Module "; Lit (name m);
                                         Lit " doesn't support language '";
                                         Fmt language;
                                         Lit "'. Skipping."] |}] |} |})).
  { unfold run_module, bind, gets, call_can_process, emit, logger, modify, ret, bind.
    rewrite Hinit. simpl. rewrite Hget. simpl. rewrite Hread, Hcan. simpl.
    by rewrite <- app_assoc. }
  split.
  - exact Hrun.
  - rewrite Hrun. simpl. by rewrite drop_app_length.
Qed.

Lemma run_module_skips_unsupported_language_witness :
  let st := Demo.pipeline_of [("a", Demo.a); ("b", Demo.b)] true in
  ((run_module "a" "bonjour" {["language" := VStr "fr-FR"]} st).1 = Return VNone ∧
   called Process
     (trace (world (run_module "a" "bonjour" {["language" := VStr "fr-FR"]} st).2)) = []) ∧
  ((run_module "b" "hello" ∅ st).1 = Return VNone ∧
   called Process (trace (world (run_module "b" "hello" ∅ st).2)) = []).
Proof.
  assert (Hfr : VStr "fr-FR" =
                match ({["language" := VStr "fr-FR"]} : gmap string PyVal) !! "language" with
                | Some v => v
                | None => VStr "en-US"
                end) by (vm_compute; reflexivity).
  pose proof (run_module_skips_unsupported_language
                (Demo.pipeline_of [("a", Demo.a); ("b", Demo.b)] true)
                Demo.a "bonjour" {["language" := VStr "fr-FR"]} (VStr "fr-FR")
                eq_refl eq_refl Hfr eq_refl) as (Hrun & Hcalled).
  pose proof (run_module_skips_unsupported_language
                (Demo.pipeline_of [("a", Demo.a); ("b", Demo.b)] true)
                Demo.b "hello" ∅ (VStr "en-US")
                eq_refl eq_refl eq_refl eq_refl) as (Hrun' & Hcalled').
  split; (split; [| ]).
  - exact (f_equal fst Hrun).
  - exact Hcalled.
  - exact (f_equal fst Hrun').
  - exact Hcalled'.
Defined.

(** C6. On an initialized pipeline, when the module registered under the
    name supports the language and its [process] raises [e], [run_module]
    raises that same [e] to its caller: it logs one error record and
    re-raises, it never turns the failure into a value. What [process]
    wrote before raising stays written. *)
Theorem run_module_propagates_failure
    (st : St) (m : ProcessorModule) (text : string) (kwargs : Kwargs) (e : Exn) (ms : ModSt) :
  initialized (self st) = true →
  PyDict.get (name m) (modules (self st)) = Some m →
  can_process m (language_of kwargs) = true →
  process m text kwargs (enter (heap (world st)) m) = (Raise e, ms) →
  run_module (name m) text kwargs st =
    (Raise e,
     {| self := self st;
        world := {| heap := <[obj_id m := self_attrs ms]> (heap (world st));
                    trace := trace (world st) ++
                      [Called CanProcess (name m) (obj_id m);
                       Called Process (name m) (obj_id m)] ++
                      (ModuleLogged (obj_id m) <$> emitted ms) ++
                      [Logged {| lvl := ERROR;
                                 msg := [Lit "Error in module '"; Lit (name m);
                                         Lit "': "; Lit (exn_str e)] |}] |} |}).
Proof.
  intros Hinit Hget Hcan Hproc.
  unfold run_module, bind, gets, call_can_process, emit, logger, modify, ret, bind,
    try_except, call, raise.
  rewrite Hinit. simpl. rewrite Hget. simpl. rewrite Hcan. simpl.
  rewrite Hproc. simpl. do 3 f_equal.
  rewrite <- !app_assoc. simpl. done.
Qed.

Lemma run_module_propagates_failure_witness :
  (run_module "x" "hello" ∅
     (Demo.pipeline_of [("a", Demo.a); ("x", Demo.x)] true)).1
  = Raise (MkExn RuntimeError "boom" None).
Proof.
  exact (f_equal fst
           (run_module_propagates_failure
              (Demo.pipeline_of [("a", Demo.a); ("x", Demo.x)] true)
              Demo.x "hello" ∅ (MkExn RuntimeError "boom" None)
              {| self_attrs := <["calls" := VInt 1]> ∅; emitted := [] |}
              eq_refl eq_refl eq_refl eq_refl)).
Defined.

(** ** The registry *)

Lemma Forall_set {V} (P : string * V → Prop) k v (d : pydict V) :
  P (k, v) → Forall P d → Forall P (PyDict.set k v d).
Proof.
  intros Hkv. induction 1 as [|[k' v'] d Hx Hd IH]; simpl.
  - by apply Forall_singleton.
  - destruct (decide (k = k')) as [->|Hne]; by apply Forall_cons.
Qed.

Lemma register_eq (m : ProcessorModule) (st : St) :
  register m st =
    (Return tt,
     {| self := {| modules := PyDict.set (name m) m (modules (self st));
                   config := config (self st);
                   initialized := initialized (self st) |};
        world := {| heap := heap (world st);
                    trace := trace (world st) ++
                      (if PyDict.contains (name m) (modules (self st))
                       then [Logged {| lvl := WARNING;
                                       msg := [Lit "Module '"; Lit (name m);
                                               Lit "' is already registered. Overwriting."] |}]
                       else []) ++
                      [Logged {| lvl := INFO;
                                 msg := [Lit "Registered module: "; Lit (name m)] |}] |} |}).
Proof.
  unfold register, bind, gets, logger, emit, set_modules, modify, ret.
  destruct (PyDict.contains (name m) (modules (self st))); simpl.
  - by rewrite <- app_assoc.
  - done.
Qed.

Lemma unregister_eq (module_name : string) (st : St) :
  unregister module_name st =
    if PyDict.contains module_name (modules (self st))
    then (Return true,
          {| self := {| modules := PyDict.del module_name (modules (self st));
                        config := config (self st);
                        initialized := initialized (self st) |};
             world := {| heap := heap (world st);
                         trace := trace (world st) ++
                           [Logged {| lvl := INFO;
                                      msg := [Lit "Unregistered module: ";
                                              Lit module_name] |}] |} |})
    else (Return false,
          {| self := self st;
             world := {| heap := heap (world st);
                         trace := trace (world st) ++
                           [Logged {| lvl := WARNING;
                                      msg := [Lit "Cannot unregister '"; Lit module_name;
                                              Lit "': module not found"] |}] |} |}).
Proof.
  unfold unregister, bind, gets, logger, emit, set_modules, modify, ret.
  by destruct (PyDict.contains module_name (modules (self st))).
Qed.

Lemma keeps_self_initialize_step u item : keeps_self (initialize_step u item).
Proof.
  destruct item as [k m]. unfold initialize_step, module_config_of. auto 10 with frame.
Qed.
#[local] Hint Resolve keeps_self_initialize_step : frame.

Lemma initialize_all_modules config st :
  modules (self (initialize_all config st).2) = modules (self st).
Proof.
  unfold initialize_all, bind, gets, set_config, set_initialized, logger, emit, modify.
  simpl.
  match goal with |- context [for_each ?l ?a ?b ?s] =>
    pose proof (keeps_self_for_each l a b keeps_self_initialize_step s) as Hself;
    destruct (for_each l a b s) as [[[]|e] st']
  end; simpl in *; by rewrite Hself.
Qed.

Lemma registry_ok_register m st :
  registry_ok (self st) → registry_ok (self (register m st).2).
Proof.
  intros [Hnd Hnamed]. rewrite register_eq. split; simpl.
  - by apply NoDup_keys_set.
  - by apply Forall_set.
Qed.

Lemma registry_ok_unregister n st :
  registry_ok (self st) → registry_ok (self (unregister n st).2).
Proof.
  intros [Hnd Hnamed]. rewrite unregister_eq.
  destruct (PyDict.contains n (modules (self st))); simpl; [|done].
  split; simpl.
  - eapply sublist_NoDup; [done | apply keys_del_sublist].
  - rewrite Forall_forall in Hnamed |- *. intros item Hitem.
    apply Hnamed. eapply elem_of_sublist; [done | apply del_sublist].
Qed.

Lemma registry_ok_modules p p' :
  modules p' = modules p → registry_ok p → registry_ok p'.
Proof. unfold registry_ok. by intros ->. Qed.

Lemma registry_ok_exec st o : registry_ok (self st) → registry_ok (self (exec st o)).
Proof.
  intros Hok. destruct o as [m|n|c|n t k|t k]; simpl.
  - by apply registry_ok_register.
  - by apply registry_ok_unregister.
  - eapply registry_ok_modules; [apply initialize_all_modules | done].
  - by rewrite keeps_self_run_module.
  - by rewrite keeps_self_run_all.
Qed.

Lemma registry_ok_run_ops ops st :
  registry_ok (self st) → registry_ok (self (run_ops ops st)).
Proof.
  unfold run_ops. revert st. induction ops as [|o ops IH]; intros st Hok; simpl; [done|].
  by apply IH, registry_ok_exec.
Qed.

Lemma registry_ok_fresh w : registry_ok (self (fresh w)).
Proof. split; simpl; [apply NoDup_nil_2 | apply Forall_nil_2]. Qed.

Lemma registry_ok_functional p k m m' :
  registry_ok p → (k, m) ∈ modules p → (k, m') ∈ modules p → m = m'.
Proof.
  intros [Hnd _] H1 H2.
  apply (elem_of_get _ _ _ Hnd) in H1. apply (elem_of_get _ _ _ Hnd) in H2. congruence.
Qed.

(** C8. Take any pipeline obtained from [Pipeline()] by a sequence of public
    operations, and register two modules of the same name one after the
    other. The second [register] returns normally, the name is then bound
    to the second module and to nothing else, the registry has the same
    names in the same order as after the first call (the binding was
    replaced, not added), and the call logs a warning record followed by
    the usual info record. Before, between and after the two calls every
    name of the registry occurs once. *)
Theorem register_same_name_replaces
    (w : World) (ops : list Op) (m1 m2 : ProcessorModule) :
  name m1 = name m2 →
  let st0 := run_ops ops (fresh w) in
  let st1 := (register m1 st0).2 in
  let r := register m2 st1 in
  r.1 = Return tt ∧
  PyDict.get (name m2) (modules (self r.2)) = Some m2 ∧
  (∀ m, (name m2, m) ∈ modules (self r.2) → m = m2) ∧
  PyDict.keys (modules (self r.2)) = PyDict.keys (modules (self st1)) ∧
  trace (world r.2) =
    (trace (world st1) ++
     [Logged {| lvl := WARNING;
                msg := [Lit "Module '"; Lit (name m2);
                        Lit "' is already registered. Overwriting."] |};
      Logged {| lvl := INFO; msg := [Lit "Registered module: "; Lit (name m2)] |}])%list ∧
  NoDup (PyDict.keys (modules (self st0))) ∧
  NoDup (PyDict.keys (modules (self st1))) ∧
  NoDup (PyDict.keys (modules (self r.2))).
Proof.
  intros Hname st0 st1 r.
  assert (Hok0 : registry_ok (self st0)) by apply registry_ok_run_ops, registry_ok_fresh.
  assert (Hok1 : registry_ok (self st1)) by by apply registry_ok_register.
  assert (Hok2 : registry_ok (self r.2)) by by apply registry_ok_register.
  assert (Hin : name m2 ∈ PyDict.keys (modules (self st1))).
  { subst st1. rewrite register_eq. simpl. rewrite <- Hname.
    apply dec_stable. intros Hnin%get_None. by rewrite get_set_eq in Hnin. }
  assert (Hget : PyDict.get (name m2) (modules (self r.2)) = Some m2).
  { subst r. rewrite register_eq. simpl. apply get_set_eq. }
  split_and!; try (by apply Hok0 || by apply Hok1 || by apply Hok2).
  - subst r. by rewrite register_eq.
  - exact Hget.
  - intros m Hm. apply get_elem_of in Hget. by eapply registry_ok_functional.
  - subst r. rewrite register_eq. simpl. by apply keys_set_present.
  - subst r. rewrite register_eq. simpl.
    apply contains_true in Hin. by rewrite Hin.
Qed.

Lemma register_same_name_replaces_witness :
  let st1 := (register (Demo.echo 1 "a" ["en-US"]) (fresh Demo.empty_world)).2 in
  let r := register (Demo.boom 7 "a" ["fr-FR"]) st1 in
  r.1 = Return tt ∧
  PyDict.get "a" (modules (self r.2)) = Some (Demo.boom 7 "a" ["fr-FR"]) ∧
  PyDict.keys (modules (self r.2)) = ["a"].
Proof.
  pose proof (register_same_name_replaces Demo.empty_world []
                (Demo.echo 1 "a" ["en-US"]) (Demo.boom 7 "a" ["fr-FR"]) eq_refl)
    as (Hret & Hget & _ & Hkeys & _).
  split_and!; [exact Hret | exact Hget | exact Hkeys].
Defined.

(** C9. [unregister] always returns, it never raises. On a registry where
    every name occurs once: when the name is registered it returns [True],
    the name is bound no more and every other binding is as before; when
    the name is not registered it returns [False] and the pipeline object
    is unchanged (one warning record is logged). *)
Theorem unregister_total (st : St) (module_name : string) :
  NoDup (PyDict.keys (modules (self st))) →
  match PyDict.get module_name (modules (self st)) with
  | Some _ =>
      ∃ st', unregister module_name st = (Return true, st') ∧
        PyDict.get module_name (modules (self st')) = None ∧
        (∀ k, k ≠ module_name →
              PyDict.get k (modules (self st')) = PyDict.get k (modules (self st))) ∧
        config (self st') = config (self st) ∧
        initialized (self st') = initialized (self st) ∧
        heap (world st') = heap (world st)
  | None =>
      unregister module_name st =
        (Return false,
         {| self := self st;
            world := {| heap := heap (world st);
                        trace := trace (world st) ++
                          [Logged {| lvl := WARNING;
                                     msg := [Lit "Cannot unregister '"; Lit module_name;
                                             Lit "': module not found"] |}] |} |})
  end.
Proof.
  intros Hnd. rewrite unregister_eq. unfold PyDict.contains.
  destruct (PyDict.get module_name (modules (self st))) as [m|]; [|done].
  eexists. split; [done|]. simpl. split_and!; try done.
  - by apply get_del_eq.
  - intros k Hk. by apply get_del_ne.
Qed.

Lemma unregister_total_witness :
  let st := Demo.pipeline_of [("a", Demo.a); ("b", Demo.b)] true in
  (∃ st', unregister "a" st = (Return true, st') ∧
          PyDict.get "a" (modules (self st')) = None ∧
          PyDict.get "b" (modules (self st')) = Some Demo.b) ∧
  (unregister "zzz" st).1 = Return false ∧
  self (unregister "zzz" st).2 = self st.
Proof.
  assert (Hnd : NoDup (PyDict.keys
            (modules (self (Demo.pipeline_of [("a", Demo.a); ("b", Demo.b)] true))))).
  { apply (bool_decide_unpack _). vm_compute. exact I. }
  pose proof (unregister_total _ "a" Hnd) as (st' & Hun & Hgone & Hother & _).
  pose proof (unregister_total _ "zzz" Hnd) as Hmissing.
  split_and!.
  - exists st'. split_and!; [exact Hun | exact Hgone |].
    rewrite Hother; [reflexivity | discriminate].
  - exact (f_equal fst Hmissing).
  - exact (f_equal (λ r, self r.2) Hmissing).
Defined.

(** ** [run_all] *)

Lemma called_module_logged meth obj (rs : list LogRecord) :
  called meth (ModuleLogged obj <$> rs) = [].
Proof. induction rs as [|r rs IH]; simpl; [done|]. exact IH. Qed.

Lemma entry_of_ext text kwargs (h h' : gmap nat Attrs) m :
  h' !! obj_id m = h !! obj_id m → entry_of text kwargs h' m = entry_of text kwargs h m.
Proof. intros Heq. unfold entry_of, enter, attrs_of. by rewrite Heq. Qed.

Lemma capable_cons language k m (d : pydict ProcessorModule) :
  capable language ((k, m) :: d) =
  if can_process m language then (k, m) :: capable language d else capable language d.
Proof.
  unfold capable. rewrite filter_cons. simpl.
  destruct (can_process m language); by case_decide.
Qed.

Lemma run_all_step_spec text kwargs language results k m st :
  ∃ evs h',
    run_all_step text kwargs language results (k, m) st =
      (Return (if can_process m language
               then PyDict.set k (entry_of text kwargs (heap (world st)) m) results
               else results),
       {| self := self st;
          world := {| heap := h'; trace := trace (world st) ++ evs |} |}) ∧
    called CanProcess evs = [name m] ∧
    called Process evs = (if can_process m language then [name m] else []) ∧
    (∀ i, i ≠ obj_id m → h' !! i = heap (world st) !! i).
Proof.
  unfold run_all_step, bind, call_can_process, emit, logger, modify, ret, bind,
    try_except, call, entry_of.
  simpl. destruct (can_process m language); simpl.
  - destruct (process m text kwargs (enter (heap (world st)) m)) as [[r|e] ms] eqn:Hp; simpl.
    + eexists ([Called CanProcess (name m) (obj_id m)] ++
               (Called Process (name m) (obj_id m)
                  :: (ModuleLogged (obj_id m) <$> emitted ms)) ++ [Logged _])%list, _.
      split_and!.
      * rewrite !app_assoc. reflexivity.
      * simpl. by rewrite called_app, called_module_logged.
      * simpl. by rewrite called_app, called_module_logged.
      * intros i Hi. simpl. by rewrite lookup_insert_ne.
    + eexists ([Called CanProcess (name m) (obj_id m)] ++
               (Called Process (name m) (obj_id m)
                  :: (ModuleLogged (obj_id m) <$> emitted ms)) ++ [Logged _])%list, _.
      split_and!.
      * rewrite !app_assoc. reflexivity.
      * simpl. by rewrite called_app, called_module_logged.
      * simpl. by rewrite called_app, called_module_logged.
      * intros i Hi. simpl. by rewrite lookup_insert_ne.
  - eexists ([Called CanProcess (name m) (obj_id m)] ++ [Logged _])%list, _. split_and!.
    + rewrite !app_assoc. reflexivity.
    + done.
    + done.
    + done.
Qed.

(** The loop of [run_all] on a registry where every name occurs once: the
    modules are asked [can_process] in order, those that support the
    language are run in order, and the names of the entries appended to
    [acc] are exactly theirs. *)
Lemma run_all_loop_keys text kwargs language (items : pydict ProcessorModule) :
  ∀ (acc : pydict PyVal) (st : St),
    NoDup (PyDict.keys items) →
    (∀ k, k ∈ PyDict.keys items → k ∉ PyDict.keys acc) →
    ∃ (rs : pydict PyVal) (evs : list Event) (h' : gmap nat Attrs),
      for_each items acc (run_all_step text kwargs language) st =
        (Return (acc ++ rs)%list,
         {| self := self st;
            world := {| heap := h'; trace := trace (world st) ++ evs |} |}) ∧
      PyDict.keys rs = PyDict.keys (capable language items) ∧
      called CanProcess evs = name <$> PyDict.values items ∧
      called Process evs = name <$> PyDict.values (capable language items).
Proof.
  induction items as [|[k m] items IH]; intros acc st Hnd Hfresh.
  - exists [], [], (heap (world st)). simpl. rewrite !app_nil_r.
    split_and!; try done. unfold ret. by destruct st as [? []].
  - unfold PyDict.keys in Hnd. rewrite fmap_cons in Hnd.
    apply NoDup_cons in Hnd as [Hk Hnd]. simpl in Hk. fold (PyDict.keys items) in Hk, Hnd.
    destruct (run_all_step_spec text kwargs language acc k m st)
      as (evs1 & h1 & Hstep & Hcan1 & Hproc1 & _).
    rewrite for_each_cons, Hstep, capable_cons.
    assert (Hkacc : k ∉ PyDict.keys acc) by (apply Hfresh, list_elem_of_here).
    destruct (can_process m language).
    + rewrite set_absent by done.
      edestruct (IH (acc ++ [(k, entry_of text kwargs (heap (world st)) m)])%list)
        as (rs & evs & h' & Hloop & Hkeys & Hcan & Hproc); [done| |].
      { intros k' Hk'. unfold PyDict.keys. rewrite fmap_app, not_elem_of_app. split.
        - apply Hfresh. by apply list_elem_of_further.
        - simpl. intros ->%list_elem_of_singleton. done. }
      rewrite Hloop. simpl.
      exists ((k, entry_of text kwargs (heap (world st)) m) :: rs), (evs1 ++ evs), h'.
      split_and!.
      * by rewrite <- !app_assoc.
      * unfold PyDict.keys in *. by rewrite !fmap_cons, Hkeys.
      * rewrite called_app, Hcan1, Hcan. done.
      * rewrite called_app, Hproc1, Hproc. done.
    + edestruct (IH acc) as (rs & evs & h' & Hloop & Hkeys & Hcan & Hproc); [done| |].
      { intros k' Hk'. apply Hfresh. by apply list_elem_of_further. }
      rewrite Hloop. simpl. exists rs, (evs1 ++ evs), h'.
      split_and!.
      * by rewrite <- !app_assoc.
      * done.
      * rewrite called_app, Hcan1, Hcan. done.
      * rewrite called_app, Hproc1, Hproc. done.
Qed.

(** When moreover no object is registered twice, the entry of a module is
    what its [process] does on the attributes it had before the loop. *)
Lemma run_all_loop_entries text kwargs language (items : pydict ProcessorModule) :
  ∀ (acc : pydict PyVal) (st : St),
    NoDup (PyDict.keys items) →
    NoDup (obj_id <$> PyDict.values items) →
    (∀ k, k ∈ PyDict.keys items → k ∉ PyDict.keys acc) →
    ∃ (evs : list Event) (h' : gmap nat Attrs),
      for_each items acc (run_all_step text kwargs language) st =
        (Return (acc ++ (prod_map id (entry_of text kwargs (heap (world st)))
                           <$> capable language items))%list,
         {| self := self st;
            world := {| heap := h'; trace := trace (world st) ++ evs |} |}) ∧
      (∀ i, i ∉ obj_id <$> PyDict.values items → h' !! i = heap (world st) !! i).
Proof.
  induction items as [|[k m] items IH]; intros acc st Hnd Hids Hfresh.
  - exists [], (heap (world st)). simpl. rewrite !app_nil_r.
    split; [|done]. unfold ret. by destruct st as [? []].
  - unfold PyDict.keys in Hnd. rewrite fmap_cons in Hnd.
    apply NoDup_cons in Hnd as [Hk Hnd]. simpl in Hk. fold (PyDict.keys items) in Hk, Hnd.
    unfold PyDict.values in Hids. rewrite !fmap_cons in Hids.
    apply NoDup_cons in Hids as [Hid Hids]. simpl in Hid.
    fold (PyDict.values items) in Hid, Hids.
    destruct (run_all_step_spec text kwargs language acc k m st)
      as (evs1 & h1 & Hstep & _ & _ & Hframe1).
    rewrite for_each_cons, Hstep, capable_cons.
    assert (Hkacc : k ∉ PyDict.keys acc) by (apply Hfresh, list_elem_of_here).
    assert (Hsame : prod_map id (entry_of text kwargs h1) <$> capable language items
                    = prod_map id (entry_of text kwargs (heap (world st)))
                        <$> capable language items).
    { apply list_fmap_ext. intros j [k' m'] Hin%list_elem_of_lookup_2.
      unfold prod_map. simpl. f_equal.
      apply entry_of_ext, Hframe1. intros Heq. apply Hid.
      apply list_elem_of_fmap. exists m'. split; [done|].
      apply list_elem_of_fmap. exists (k', m'). split; [done|].
      unfold capable in Hin. by apply list_elem_of_filter in Hin as [_ Hin]. }
    assert (Hframe : ∀ h' : gmap nat Attrs,
              (∀ i, i ∉ obj_id <$> PyDict.values items → h' !! i = h1 !! i) →
              ∀ i, i ∉ obj_id <$> PyDict.values ((k, m) :: items) →
                   h' !! i = heap (world st) !! i).
    { intros h' Hh' i Hi. unfold PyDict.values in Hi. simpl in Hi.
      apply not_elem_of_cons in Hi as [Hne Hi]. rewrite Hh' by done. by apply Hframe1. }
    destruct (can_process m language).
    + rewrite set_absent by done.
      edestruct (IH (acc ++ [(k, entry_of text kwargs (heap (world st)) m)])%list)
        as (evs & h' & Hloop & Hh'); [done|done| |].
      { intros k' Hk'. unfold PyDict.keys. rewrite fmap_app, not_elem_of_app. split.
        - apply Hfresh. by apply list_elem_of_further.
        - simpl. intros ->%list_elem_of_singleton. done. }
      rewrite Hloop. simpl. exists (evs1 ++ evs), h'. split; [|by apply Hframe].
      rewrite Hsame. by rewrite <- !app_assoc.
    + edestruct (IH acc) as (evs & h' & Hloop & Hh'); [done|done| |].
      { intros k' Hk'. apply Hfresh. by apply list_elem_of_further. }
      rewrite Hloop. simpl. exists (evs1 ++ evs), h'. split; [|by apply Hframe].
      rewrite Hsame. by rewrite <- !app_assoc.
Qed.

Lemma named_keys (d : pydict ProcessorModule) :
  Forall (λ item, item.1 = name item.2) d → name <$> PyDict.values d = PyDict.keys d.
Proof.
  unfold PyDict.values, PyDict.keys. induction 1 as [|[k m] d Hx Hd IH]; [done|].
  rewrite !fmap_cons, IH. simpl in *. by rewrite Hx.
Qed.

Lemma capable_sublist language (d : pydict ProcessorModule) : sublist (capable language d) d.
Proof. apply sublist_filter. Qed.

Lemma capable_NoDup language (d : pydict ProcessorModule) :
  NoDup (PyDict.keys d) → NoDup (PyDict.keys (capable language d)).
Proof.
  intros Hnd. eapply sublist_NoDup; [exact Hnd|].
  unfold PyDict.keys. apply fmap_sublist, capable_sublist.
Qed.

Lemma capable_named language (d : pydict ProcessorModule) :
  Forall (λ item, item.1 = name item.2) d →
  Forall (λ item, item.1 = name item.2) (capable language d).
Proof.
  rewrite !Forall_forall. intros Hd item Hitem. apply Hd.
  eapply elem_of_sublist; [done | apply capable_sublist].
Qed.

Lemma elem_of_capable language (d : pydict ProcessorModule) k m :
  (k, m) ∈ capable language d ↔ can_process m language = true ∧ (k, m) ∈ d.
Proof. unfold capable. by rewrite list_elem_of_filter. Qed.

Lemma get_fmap_entry {V W} (f : V → W) (d : pydict V) k v :
  NoDup (PyDict.keys d) → (k, v) ∈ d →
  PyDict.get k (prod_map id f <$> d) = Some (f v).
Proof.
  intros Hnd Hin. apply elem_of_get.
  - unfold PyDict.keys in *. rewrite <- list_fmap_compose.
    erewrite list_fmap_ext; [exact Hnd|]. by intros i [k' v'] _.
  - apply list_elem_of_fmap. by exists (k, v).
Qed.

Lemma run_all_ready text kwargs st :
  initialized (self st) = true →
  run_all text kwargs st =
  for_each (modules (self st)) [] (run_all_step text kwargs (language_of kwargs)) st.
Proof. intros Hinit. unfold run_all, bind, gets. by rewrite Hinit. Qed.

(** C2. On an initialized pipeline whose registry binds every name once, to
    the module of that name, [run_all] returns a mapping and does not
    raise. It asks every registered module [can_process], in the order of
    the registry. The names of the returned mapping are the names of the
    modules that support the language, each once and in registry order: a
    module that does not support it has no entry at all, and a module that
    does has one. *)
Theorem run_all_language_gate (st : St) (text : string) (kwargs : Kwargs) :
  initialized (self st) = true →
  registry_ok (self st) →
  ∃ (results : pydict PyVal) (st' : St) (evs : list Event),
    run_all text kwargs st = (Return results, st') ∧
    trace (world st') = trace (world st) ++ evs ∧
    called CanProcess evs = PyDict.keys (modules (self st)) ∧
    called Process evs = PyDict.keys (capable (language_of kwargs) (modules (self st))) ∧
    PyDict.keys results = PyDict.keys (capable (language_of kwargs) (modules (self st))) ∧
    NoDup (PyDict.keys results) ∧
    (∀ k m, (k, m) ∈ modules (self st) →
       if can_process m (language_of kwargs)
       then is_Some (PyDict.get k results)
       else PyDict.get k results = None).
Proof.
  intros Hinit [Hnd Hnamed].
  destruct (run_all_loop_keys text kwargs (language_of kwargs) (modules (self st)) [] st Hnd)
    as (rs & evs & h' & Hloop & Hkeys & Hcan & Hproc).
  { intros k _. apply not_elem_of_nil. }
  rewrite app_nil_l in Hloop.
  exists rs, {| self := self st;
                world := {| heap := h'; trace := trace (world st) ++ evs |} |}, evs.
  split_and!.
  - by rewrite run_all_ready.
  - done.
  - by rewrite Hcan, named_keys.
  - rewrite Hproc, named_keys; [done | by apply capable_named].
  - done.
  - rewrite Hkeys. by apply capable_NoDup.
  - intros k m Hin. destruct (can_process m (language_of kwargs)) eqn:Hcp.
    + destruct (PyDict.get k rs) eqn:Hget; [by eexists|].
      apply get_None in Hget. exfalso. apply Hget. rewrite Hkeys.
      apply list_elem_of_fmap. exists (k, m). split; [done|]. by apply elem_of_capable.
    + apply get_None. rewrite Hkeys. intros Hk.
      apply list_elem_of_fmap in Hk as ([k' m'] & -> & Hin'). simpl in *.
      apply elem_of_capable in Hin' as [Hcp' Hin'].
      assert (m = m') as <- by (eapply registry_ok_functional; [by split|done|done]).
      congruence.
Qed.

Lemma run_all_language_gate_witness :
  let st := Demo.pipeline_of [("a", Demo.a); ("b", Demo.b)] true in
  ∃ (results : pydict PyVal) (st' : St),
    run_all "bonjour" {["language" := VStr "fr-FR"]} st = (Return results, st') ∧
    PyDict.keys results = ["b"].
Proof.
  assert (Hok : registry_ok
            (self (Demo.pipeline_of [("a", Demo.a); ("b", Demo.b)] true))).
  { split.
    - apply (bool_decide_unpack _). vm_compute. exact I.
    - repeat constructor. }
  destruct (run_all_language_gate
              (Demo.pipeline_of [("a", Demo.a); ("b", Demo.b)] true)
              "bonjour" {["language" := VStr "fr-FR"]} eq_refl Hok)
    as (results & st' & evs & Hrun & _ & _ & _ & Hkeys & _).
  exists results, st'. split; [exact Hrun | exact Hkeys].
Defined.

(** C1. On an initialized pipeline whose registry binds every name once, to
    the module of that name, and holds no object twice, [run_all] returns a
    mapping and does not raise, whatever its modules do. Every registered
    module that supports the language is run. If its [process] raises [e],
    its name is mapped to [{"error": str(e)}]; if it returns [r], its name
    is mapped to [r]. So the entry of a module depends on that module
    alone: a module that raises changes no other entry and stops no other
    module. *)
Theorem run_all_fault_isolation (st : St) (text : string) (kwargs : Kwargs) :
  initialized (self st) = true →
  registry_ok (self st) →
  distinct_objects (self st) →
  ∃ (results : pydict PyVal) (st' : St) (evs : list Event),
    run_all text kwargs st = (Return results, st') ∧
    trace (world st') = trace (world st) ++ evs ∧
    ∀ m, m ∈ PyDict.values (modules (self st)) →
         can_process m (language_of kwargs) = true →
         name m ∈ called Process evs ∧
         match (process m text kwargs (enter (heap (world st)) m)).1 with
         | Raise e =>
             PyDict.get (name m) results = Some (VDict [("error", VStr (exn_str e))])
         | Return r => PyDict.get (name m) results = Some r
         end.
Proof.
  intros Hinit [Hnd Hnamed] Hids.
  destruct (run_all_loop_keys text kwargs (language_of kwargs) (modules (self st)) [] st Hnd)
    as (rs & evs & h' & Hloop & Hkeys & Hcan & Hproc).
  { intros k _. apply not_elem_of_nil. }
  destruct (run_all_loop_entries text kwargs (language_of kwargs) (modules (self st)) [] st
              Hnd Hids) as (evs2 & h2 & Hloop2 & _).
  { intros k _. apply not_elem_of_nil. }
  rewrite app_nil_l in Hloop, Hloop2. rewrite Hloop in Hloop2.
  injection Hloop2 as Hrs _ _. subst rs.
  eexists _, _, evs. split_and!.
  - rewrite run_all_ready by done. exact Hloop.
  - done.
  - intros m Hm Hcp.
    apply list_elem_of_fmap in Hm as ([k m'] & -> & Hin). simpl in *.
    assert (k = name m') as ->.
    { rewrite Forall_forall in Hnamed. exact (Hnamed _ Hin). }
    assert (Hcap : (name m', m') ∈ capable (language_of kwargs) (modules (self st)))
      by by apply elem_of_capable.
    split.
    + rewrite Hproc. apply list_elem_of_fmap. exists m'. split; [done|].
      apply list_elem_of_fmap. by exists (name m', m').
    + pose proof (get_fmap_entry (entry_of text kwargs (heap (world st))) _ _ _
                    (capable_NoDup _ _ Hnd) Hcap) as Hget.
      unfold entry_of, error_marker in Hget.
      by destruct (process m' text kwargs (enter (heap (world st)) m')).1.
Qed.

Lemma run_all_fault_isolation_witness :
  let st := Demo.pipeline_of
              [("fussy", Demo.fussy); ("x", Demo.x); ("a", Demo.a); ("b", Demo.b)] true in
  ∃ (results : pydict PyVal) (st' : St),
    run_all "hello" ∅ st = (Return results, st') ∧
    PyDict.get "fussy" results = Some (VDict [("error", VStr "cannot parse input")]) ∧
    PyDict.get "x" results = Some (VDict [("error", VStr "boom")]) ∧
    PyDict.get "a" results = Some (VDict [("text", VStr "hello")]).
Proof.
  assert (Hok : registry_ok (self (Demo.pipeline_of
            [("fussy", Demo.fussy); ("x", Demo.x); ("a", Demo.a); ("b", Demo.b)] true))).
  { split.
    - apply (bool_decide_unpack _). vm_compute. exact I.
    - repeat constructor. }
  assert (Hids : distinct_objects (self (Demo.pipeline_of
            [("fussy", Demo.fussy); ("x", Demo.x); ("a", Demo.a); ("b", Demo.b)] true))).
  { apply (bool_decide_unpack _). vm_compute. exact I. }
  destruct (run_all_fault_isolation
              (Demo.pipeline_of
                 [("fussy", Demo.fussy); ("x", Demo.x); ("a", Demo.a); ("b", Demo.b)] true)
              "hello" ∅ eq_refl Hok Hids)
    as (results & st' & evs & Hrun & _ & Hall).
  exists results, st'. split_and!.
  - exact Hrun.
  - refine (proj2 (Hall Demo.fussy _ eq_refl)). apply list_elem_of_here.
  - refine (proj2 (Hall Demo.x _ eq_refl)).
    apply list_elem_of_further, list_elem_of_here.
  - refine (proj2 (Hall Demo.a _ eq_refl)).
    apply list_elem_of_further, list_elem_of_further, list_elem_of_here.
Defined.

(** ** [initialize_all] *)

Lemma initialize_step_eq u k m st :
  initialize_step u (k, m) st =
  let r := initialize m (Some (default ∅ (config (self st) !! k)))
             (enter (heap (world st)) m) in
  let after (rec : LogRecord) :=
    {| self := self st;
       world := {| heap := <[obj_id m := self_attrs r.2]> (heap (world st));
                   trace := trace (world st) ++
                     (Called Initialize (name m) (obj_id m)
                        :: (ModuleLogged (obj_id m) <$> emitted r.2)) ++
                     [Logged rec] |} |} in
  match r.1 with
  | Return _ =>
      (Return tt, after {| lvl := INFO; msg := [Lit "Initialized module: "; Lit k] |})
  | Raise e =>
      (Raise (MkExn RuntimeError ("Module initialization failed: " ++ k) (Some e)),
       after {| lvl := ERROR;
                msg := [Lit "Failed to initialize module '"; Lit k; Lit "': ";
                        Lit (exn_str e)] |})
  end.
Proof.
  unfold initialize_step, try_except, bind, module_config_of, gets, call, logger, emit,
    modify, raise. simpl.
  destruct (initialize m _ _) as [[[]|e] ms]; simpl; by rewrite <- app_assoc.
Qed.

Lemma initialize_all_eq config0 st :
  initialize_all config0 st =
  match for_each (modules (self st)) tt initialize_step
          (set_config (default ∅ config0) st).2 with
  | (Return _, st') =>
      (Return tt,
       {| self := {| modules := modules (self st');
                     config := config (self st');
                     initialized := true |};
          world := {| heap := heap (world st');
                      trace := trace (world st') ++
                        [Logged {| lvl := INFO;
                                   msg := [Lit "Pipeline initialization complete"] |}] |} |})
  | (Raise e, st') => (Raise e, st')
  end.
Proof.
  unfold initialize_all, bind, gets, set_initialized, logger, emit, modify. simpl.
  by destruct (for_each _ _ _ _) as [[[]|e] st'].
Qed.

(** A run of the loop of [initialize_all] that raises nothing: the modules
    were initialized in order, and only their attributes changed. *)
Lemma initialize_loop_success (items : pydict ProcessorModule) :
  ∀ st st1,
    for_each items tt initialize_step st = (Return tt, st1) →
    ∃ evs,
      self st1 = self st ∧
      trace (world st1) = trace (world st) ++ evs ∧
      called Initialize evs = name <$> PyDict.values items ∧
      (∀ i, i ∉ obj_id <$> PyDict.values items →
            heap (world st1) !! i = heap (world st) !! i).
Proof.
  induction items as [|[k m] items IH]; intros st st1 Hrun.
  - injection Hrun as <-. exists []. by rewrite app_nil_r.
  - rewrite for_each_cons, initialize_step_eq in Hrun. simpl in Hrun.
    destruct (initialize m _ _) as [[[]|e] ms]; simpl in Hrun; [|done].
    apply IH in Hrun as (evs & Hself & Htrace & Hcalled & Hheap).
    simpl in Hself, Htrace, Hheap.
    eexists. split_and!.
    + done.
    + rewrite Htrace, <- app_assoc. reflexivity.
    + rewrite !called_app, Hcalled. simpl. rewrite called_app, called_module_logged.
      done.
    + intros i Hi. unfold PyDict.values in Hi. rewrite !fmap_cons in Hi.
      apply not_elem_of_cons in Hi as [Hne Hi]. simpl in Hne.
      rewrite Hheap by done. by rewrite lookup_insert_ne.
Qed.

(** C3, as the code has it. Let the registry be [pre], then module [m]
    under key [k], then [post]; let the modules of [pre] initialize without
    raising, which leaves the state [st1], and let [initialize] of [m] raise
    [e] there. Then [initialize_all] raises
    [RuntimeError("Module initialization failed: k")] with cause [e]. It has
    called [initialize] on the modules of [pre] and on [m], in order, and on
    no module of [post]. Nothing is rolled back: the attributes are those of
    [st1], the state the modules of [pre] were initialized in, with what [m]
    wrote before it raised, and the new configuration stays captured. The
    [initialized] flag is not written: it keeps the value it had before the
    call. *)
Theorem initialize_all_fail_fast
    (st : St) (config0 : option (gmap string Config))
    (pre post : pydict ProcessorModule) (k : string) (m : ProcessorModule)
    (st1 : St) (e : Exn) (ms : ModSt) :
  modules (self st) = pre ++ (k, m) :: post →
  for_each pre tt initialize_step (set_config (default ∅ config0) st).2 = (Return tt, st1) →
  initialize m (Some (default ∅ (default ∅ config0 !! k))) (enter (heap (world st1)) m)
    = (Raise e, ms) →
  ∃ evs : list Event,
    initialize_all config0 st =
      (Raise (MkExn RuntimeError ("Module initialization failed: " ++ k) (Some e)),
       {| self := {| modules := modules (self st);
                     config := default ∅ config0;
                     initialized := initialized (self st) |};
          world := {| heap := <[obj_id m := self_attrs ms]> (heap (world st1));
                      trace := trace (world st) ++ evs |} |}) ∧
    called Initialize evs = (name <$> PyDict.values pre) ++ [name m] ∧
    (∀ i, i ∉ obj_id <$> PyDict.values (pre ++ [(k, m)]) →
          (<[obj_id m := self_attrs ms]> (heap (world st1)) : gmap nat Attrs) !! i
          = heap (world st) !! i).
Proof.
  intros Hmods Hpre Hinit.
  destruct (initialize_loop_success pre _ _ Hpre) as (evs & Hself & Htrace & Hcalled & Hheap).
  simpl in Hself, Htrace, Hheap.
  eexists. split_and!.
  - rewrite initialize_all_eq, Hmods, for_each_app, Hpre, for_each_cons.
    rewrite initialize_step_eq. simpl. rewrite Hself. simpl. rewrite Hinit. simpl.
    rewrite Htrace, <- Hmods, <- !app_assoc. reflexivity.
  - rewrite !called_app, Hcalled. simpl. by rewrite called_app, called_module_logged.
  - intros i Hi. unfold PyDict.values in Hi. rewrite !fmap_app in Hi. simpl in Hi.
    apply not_elem_of_app in Hi as [Hi Hne]. rewrite list_elem_of_singleton in Hne.
    rewrite lookup_insert_ne by done. by apply Hheap.
Qed.

Lemma initialize_all_fail_fast_witness :
  let st := Demo.pipeline_of
              [("a", Demo.a); ("bad", Demo.bad); ("b", Demo.b)] false in
  ∃ evs : list Event,
    (initialize_all None st).1 =
      Raise (MkExn RuntimeError "Module initialization failed: bad"
               (Some (MkExn ValueError "no credential" None))) ∧
    initialized (self (initialize_all None st).2) = false ∧
    trace (world (initialize_all None st).2) = evs ∧
    called Initialize evs = ["a"; "bad"].
Proof.
  destruct (initialize_all_fail_fast
              (Demo.pipeline_of
                 [("a", Demo.a); ("bad", Demo.bad); ("b", Demo.b)] false)
              None [("a", Demo.a)] [("b", Demo.b)] "bad" Demo.bad
              _ _ _ eq_refl eq_refl eq_refl) as (evs & Hrun & Hcalled & _).
  exists evs. split_and!.
  - exact (f_equal fst Hrun).
  - exact (f_equal (λ r, initialized (self r.2)) Hrun).
  - exact (f_equal (λ r, trace (world r.2)) Hrun).
  - exact Hcalled.
Defined.

(** C3, against "the flag is left false": a pipeline that was initialized
    once keeps [initialized = True] when a later [initialize_all] fails. Here
    module "a" is registered and initialized, then module "bad", whose
    [initialize] raises, is registered and [initialize_all] is called
    again: it raises, and the flag is still true. *)
Lemma initialize_all_failure_leaves_flag_true :
  let st := run_ops [Op_register Demo.a; Op_initialize_all None;
                     Op_register Demo.bad] (fresh Demo.empty_world) in
  (initialize_all None st).1 =
    Raise (MkExn RuntimeError "Module initialization failed: bad"
             (Some (MkExn ValueError "no credential" None))) ∧
  initialized (self (initialize_all None st).2) = true ∧
  (run_all "hello" ∅ (initialize_all None st).2).1 =
    Return [("a", VDict [("text", VStr "hello")]); ("bad", VStr "hello")].
Proof. vm_compute. done. Qed.

(** ** [initialize] of the concrete modules *)

(** Evaluation of the monad. *)
Ltac py_step :=
  cbv beta iota zeta delta
    [fails_unless try_except bind setattr mlog modify external raise ret fst snd
     negb andb is_return is_ImportError is_LookupError exn_class self_attrs emitted].









(** With the default provider and no API key in the configuration or in
    the environment, [TextCompletion.initialize] raises once the import of
    the client library has returned. *)
Example TextCompletion_missing_key py_str env ms :
  completion_environ env !! "NVIDIA_API_KEY" = None →
  import_openai env = Return tt →
  (TextCompletion_initialize py_str env None ms).1 =
    Raise (MkExn RuntimeError
             "Could not initialize text completion: Nvidia API key is required"
             (Some (MkExn ValueError "Nvidia API key is required" None))).
Proof.
  intros Hkey Himport. destruct ms as [ats ems].
  unfold TextCompletion_initialize, config_get, environ_get, from_option.
  rewrite Hkey, !lookup_empty. py_step. rewrite Himport. reflexivity.
Qed.






(** * Further properties of the code *)

(** ** [run_module] *)

(** X1. On an initialized pipeline, [run_module] on a name that is not
    registered raises [ValueError("Module 'name' not found in pipeline")]
    and changes nothing: no module is asked anything and nothing is
    logged. *)
Theorem run_module_unknown_name (st : St) (module_name text : string) (kwargs : Kwargs) :
  initialized (self st) = true →
  PyDict.get module_name (modules (self st)) = None →
  run_module module_name text kwargs st =
    (Raise (MkExn ValueError ("Module '" ++ module_name ++ "' not found in pipeline") None),
     st).
Proof.
  intros Hinit Hget. unfold run_module, bind, gets, raise.
  rewrite Hinit. simpl. by rewrite Hget.
Qed.

Lemma run_module_unknown_name_witness :
  (run_module "zzz" "hello" ∅ (Demo.pipeline_of [("a", Demo.a)] true)).1 =
  Raise (MkExn ValueError "Module 'zzz' not found in pipeline" None).
Proof.
  exact (f_equal fst
           (run_module_unknown_name (Demo.pipeline_of [("a", Demo.a)] true)
              "zzz" "hello" ∅ eq_refl eq_refl)).
Defined.

Lemma run_module_bound (st : St) (k : string) (m : ProcessorModule)
    (text : string) (kwargs : Kwargs) :
  initialized (self st) = true →
  PyDict.get k (modules (self st)) = Some m →
  run_module k text kwargs st =
  if can_process m (language_of kwargs)
  then
    let r := process m text kwargs (enter (heap (world st)) m) in
    (r.1,
     {| self := self st;
        world := {| heap := <[obj_id m := self_attrs r.2]> (heap (world st));
                    trace := trace (world st) ++
                      [Called CanProcess (name m) (obj_id m);
                       Called Process (name m) (obj_id m)] ++
                      (ModuleLogged (obj_id m) <$> emitted r.2) ++
                      match r.1 with
                      | Return _ => []
                      | Raise e =>
                          [Logged {| lvl := ERROR;
                                     msg := [Lit "Error in module '"; Lit k; Lit "': ";
                                             Lit (exn_str e)] |}]
                      end |} |})
  else
    (Return VNone,
     {| self := self st;
        world := {| heap := heap (world st);
                    trace := trace (world st) ++
                      [Called CanProcess (name m) (obj_id m);
                       Logged {| lvl := WARNING;
                                 msg := [Lit "Module "; Lit k;
                                         Lit " doesn't support language '";
                                         Fmt (language_of kwargs);
                                         Lit "'. Skipping."] |}] |} |}).
Proof.
  intros Hinit Hget.
  unfold run_module, bind, gets, call_can_process, emit, logger, modify, ret, bind,
    try_except, call, raise.
  rewrite Hinit. simpl. rewrite Hget. simpl.
  destruct (can_process m (language_of kwargs)); simpl.
  - destruct (process m text kwargs _) as [[r|e] ms]; simpl.
    + do 3 f_equal. rewrite <- !app_assoc. simpl. by rewrite app_nil_r.
    + do 3 f_equal. rewrite <- !app_assoc. simpl. done.
  - by rewrite <- app_assoc.
Qed.

(** X2. On an initialized pipeline, when the module registered under the
    name supports the language and its [process] returns [r], [run_module]
    returns [r] itself, unwrapped; the attributes [process] wrote are kept
    and nothing is logged by the pipeline. *)
Theorem run_module_returns_result
    (st : St) (k : string) (m : ProcessorModule) (text : string) (kwargs : Kwargs)
    (r : PyVal) (ms : ModSt) :
  initialized (self st) = true →
  PyDict.get k (modules (self st)) = Some m →
  can_process m (language_of kwargs) = true →
  process m text kwargs (enter (heap (world st)) m) = (Return r, ms) →
  run_module k text kwargs st =
    (Return r,
     {| self := self st;
        world := {| heap := <[obj_id m := self_attrs ms]> (heap (world st));
                    trace := trace (world st) ++
                      [Called CanProcess (name m) (obj_id m);
                       Called Process (name m) (obj_id m)] ++
                      (ModuleLogged (obj_id m) <$> emitted ms) |} |}).
Proof.
  intros Hinit Hget Hcan Hproc. rewrite (run_module_bound st k m) by done.
  rewrite Hcan, Hproc. simpl. by rewrite app_nil_r.
Qed.

Lemma run_module_returns_result_witness :
  (run_module "a" "hello" ∅ (Demo.pipeline_of [("a", Demo.a)] true)).1 =
  Return (VDict [("text", VStr "hello")]).
Proof.
  exact (f_equal fst
           (run_module_returns_result (Demo.pipeline_of [("a", Demo.a)] true)
              "a" Demo.a "hello" ∅ (VDict [("text", VStr "hello")])
              {| self_attrs := ∅; emitted := [] |} eq_refl eq_refl eq_refl eq_refl)).
Defined.

(** X3. [run_all] and [run_module] agree. On an initialized pipeline whose
    registry binds every name once and holds no object twice, take any
    registered module. If it supports the language, its entry in the
    mapping of [run_all] is what [run_module] returns for it on the same
    state, or the error marker of what [run_module] raises. If it does not,
    [run_all] has no entry for it and [run_module] returns [None]. *)
Theorem run_all_agrees_with_run_module (st : St) (text : string) (kwargs : Kwargs) :
  initialized (self st) = true →
  registry_ok (self st) →
  distinct_objects (self st) →
  ∃ (results : pydict PyVal) (st' : St),
    run_all text kwargs st = (Return results, st') ∧
    ∀ k m, (k, m) ∈ modules (self st) →
      if can_process m (language_of kwargs)
      then PyDict.get k results =
             Some (match (run_module k text kwargs st).1 with
                   | Return r => r
                   | Raise e => VDict [("error", VStr (exn_str e))]
                   end)
      else PyDict.get k results = None ∧
           (run_module k text kwargs st).1 = Return VNone.
Proof.
  intros Hinit [Hnd Hnamed] Hids.
  destruct (run_all_loop_entries text kwargs (language_of kwargs) (modules (self st)) [] st
              Hnd Hids) as (evs & h' & Hloop & _).
  { intros k _. apply not_elem_of_nil. }
  rewrite app_nil_l in Hloop. eexists _, _. split.
  { rewrite run_all_ready by done. exact Hloop. }
  intros k m Hin.
  pose proof (elem_of_get _ _ _ Hnd Hin) as Hget.
  rewrite (run_module_bound st k m) by done.
  destruct (can_process m (language_of kwargs)) eqn:Hcp.
  - rewrite (get_fmap_entry (entry_of text kwargs (heap (world st))) _ k m).
    + done.
    + by apply capable_NoDup.
    + by apply elem_of_capable.
  - split; [|done]. apply get_None.
    unfold PyDict.keys. rewrite <- list_fmap_compose.
    intros Hk. apply list_elem_of_fmap in Hk as ([k' m'] & Hkk & Hin'). simpl in Hkk.
    subst k'. apply elem_of_capable in Hin' as [Hcp' Hin'].
    assert (m = m') as <-.
    { apply (elem_of_get _ _ _ Hnd) in Hin'. congruence. }
    congruence.
Qed.

Lemma run_all_agrees_with_run_module_witness :
  let st := Demo.pipeline_of [("fussy", Demo.fussy); ("a", Demo.a); ("b", Demo.b)] true in
  ∃ (results : pydict PyVal) (st' : St),
    run_all "hello" ∅ st = (Return results, st') ∧
    PyDict.get "fussy" results = Some (VDict [("error", VStr "cannot parse input")]) ∧
    PyDict.get "b" results = None.
Proof.
  assert (Hok : registry_ok (self (Demo.pipeline_of
            [("fussy", Demo.fussy); ("a", Demo.a); ("b", Demo.b)] true))).
  { split.
    - apply (bool_decide_unpack _). vm_compute. exact I.
    - repeat constructor. }
  assert (Hids : distinct_objects (self (Demo.pipeline_of
            [("fussy", Demo.fussy); ("a", Demo.a); ("b", Demo.b)] true))).
  { apply (bool_decide_unpack _). vm_compute. exact I. }
  destruct (run_all_agrees_with_run_module
              (Demo.pipeline_of [("fussy", Demo.fussy); ("a", Demo.a); ("b", Demo.b)] true)
              "hello" ∅ eq_refl Hok Hids) as (results & st' & Hrun & Hall).
  exists results, st'. split_and!.
  - exact Hrun.
  - refine (Hall "fussy" Demo.fussy _). apply list_elem_of_here.
  - refine (proj1 (Hall "b" Demo.b _)).
    apply list_elem_of_further, list_elem_of_further, list_elem_of_here.
Defined.

(** ** [initialize_all] *)

Lemma enter_ext (h h' : gmap nat (gmap string PyVal)) m :
  h' !! obj_id m = h !! obj_id m → enter h' m = enter h m.
Proof. intros Heq. unfold enter, attrs_of. by rewrite Heq. Qed.

(** The loop of [initialize_all] when no object is registered twice and the
    [initialize] of every module returns on the attributes that module has
    before the loop. *)
Lemma initialize_loop_all_return (items : pydict ProcessorModule) :
  ∀ st : St,
    NoDup (obj_id <$> PyDict.values items) →
    (∀ k m, (k, m) ∈ items →
       (initialize m (Some (default ∅ (config (self st) !! k)))
          (enter (heap (world st)) m)).1 = Return tt) →
    ∃ st1 : St,
      for_each items tt initialize_step st = (Return tt, st1) ∧
      ∀ k m, (k, m) ∈ items →
        heap (world st1) !! obj_id m =
        Some (self_attrs (initialize m (Some (default ∅ (config (self st) !! k)))
                            (enter (heap (world st)) m)).2).
Proof.
  induction items as [|[k m] items IH]; intros st Hids Hall.
  - exists st. split; [done|]. intros k m Hin. by apply elem_of_nil in Hin.
  - unfold PyDict.values in Hids. rewrite !fmap_cons in Hids.
    apply NoDup_cons in Hids as [Hid Hids]. simpl in Hid.
    fold (PyDict.values items) in Hid, Hids.
    rewrite for_each_cons, initialize_step_eq. simpl.
    pose proof (Hall k m (list_elem_of_here _ _)) as Hm.
    destruct (initialize m _ _) as [[[]|e] ms] eqn:Hinit; simpl in Hm; [|done].
    simpl.
    match goal with |- context [for_each items tt initialize_step ?s] =>
      destruct (IH s Hids) as (st1 & Hloop & Hheap)
    end.
    { intros k' m' Hin'. simpl.
      rewrite (enter_ext (heap (world st))); [apply Hall; by apply list_elem_of_further|].
      apply lookup_insert_ne. intros Heq. apply Hid.
      apply list_elem_of_fmap. exists m'. split; [done|].
      apply list_elem_of_fmap. by exists (k', m'). }
    exists st1. split; [done|].
    intros k' m' [Heq|Hin']%elem_of_cons.
    + injection Heq as -> ->. rewrite Hinit. simpl.
      destruct (initialize_loop_success items _ _ Hloop) as (evs & _ & _ & _ & Hframe).
      rewrite Hframe by done. simpl. apply lookup_insert_eq.
    + rewrite (Hheap k' m' Hin'). simpl.
      rewrite (enter_ext (heap (world st)) (<[obj_id m:=self_attrs ms]> (heap (world st))));
        [done|].
      apply lookup_insert_ne. intros Heq. apply Hid.
      apply list_elem_of_fmap. exists m'. split; [done|].
      apply list_elem_of_fmap. by exists (k', m').
Qed.

(** X4. When no object is registered twice and the [initialize] of every
    registered module returns, given the entry of that module in the
    configuration mapping (the empty mapping when it has none),
    [initialize_all] returns. It has then called [initialize] once on every
    module, in registry order; every module has the attributes its own
    [initialize] wrote; the mapping is captured in [config], the registry is
    as before, and [initialized] is true, whatever it was. *)
Theorem initialize_all_success (st : St) (config0 : option (gmap string (gmap string PyVal))) :
  distinct_objects (self st) →
  (∀ k m, (k, m) ∈ modules (self st) →
     (initialize m (Some (default ∅ (default ∅ config0 !! k)))
        (enter (heap (world st)) m)).1 = Return tt) →
  ∃ (st' : St) (evs : list Event),
    initialize_all config0 st = (Return tt, st') ∧
    self st' = {| modules := modules (self st);
                  config := default ∅ config0;
                  initialized := true |} ∧
    trace (world st') = trace (world st) ++ evs ∧
    called Initialize evs = name <$> PyDict.values (modules (self st)) ∧
    ∀ k m, (k, m) ∈ modules (self st) →
      heap (world st') !! obj_id m =
      Some (self_attrs (initialize m (Some (default ∅ (default ∅ config0 !! k)))
                          (enter (heap (world st)) m)).2).
Proof.
  intros Hids Hall.
  destruct (initialize_loop_all_return (modules (self st))
              (set_config (default ∅ config0) st).2 Hids Hall) as (st1 & Hloop & Hheap).
  destruct (initialize_loop_success _ _ _ Hloop) as (evs & Hself & Htrace & Hcalled & _).
  simpl in Hself, Htrace, Hheap.
  eexists _, (evs ++ [Logged _]). split_and!.
  - rewrite initialize_all_eq, Hloop. reflexivity.
  - simpl. by rewrite Hself.
  - simpl. by rewrite Htrace, <- app_assoc.
  - rewrite called_app, Hcalled. simpl. by rewrite app_nil_r.
  - exact Hheap.
Qed.

Lemma initialize_all_success_witness :
  let st := Demo.pipeline_of [("a", Demo.a); ("b", Demo.b)] false in
  ∃ st' : St,
    initialize_all None st = (Return tt, st') ∧
    initialized (self st') = true ∧
    heap (world st') !! 2 = Some (<["ready" := VBool true]> ∅).
Proof.
  assert (Hids : distinct_objects
            (self (Demo.pipeline_of [("a", Demo.a); ("b", Demo.b)] false))).
  { apply (bool_decide_unpack _). vm_compute. exact I. }
  destruct (initialize_all_success
              (Demo.pipeline_of [("a", Demo.a); ("b", Demo.b)] false) None Hids)
    as (st' & evs & Hrun & Hself & _ & _ & Hheap).
  { intros k m Hin. repeat (apply elem_of_cons in Hin as [Heq|Hin];
      [injection Heq as -> ->; reflexivity|]). by apply elem_of_nil in Hin. }
  exists st'. split_and!.
  - exact Hrun.
  - by rewrite Hself.
  - refine (Hheap "b" Demo.b _). apply list_elem_of_further, list_elem_of_here.
Defined.

(** ** [register] and [unregister] *)

Lemma del_app_last {V} (k : string) (v : V) (d : pydict V) :
  k ∉ PyDict.keys d → PyDict.del k (d ++ [(k, v)]) = d.
Proof.
  unfold PyDict.keys. induction d as [|[k' v'] d IH]; simpl.
  - intros _. by rewrite decide_True.
  - rewrite not_elem_of_cons. intros [Hne Hnin].
    rewrite decide_False by done. by rewrite IH.
Qed.

(** X5. Registering a module under a name that is not yet registered puts
    it last: the names are the old ones, in their order, followed by the
    new one; every other name keeps its module, the new name is bound to
    the module, one info record is logged and no warning. *)
Theorem register_new_name_goes_last (st : St) (m : ProcessorModule) :
  PyDict.get (name m) (modules (self st)) = None →
  ∃ st' : St,
    register m st = (Return tt, st') ∧
    modules (self st') = modules (self st) ++ [(name m, m)] ∧
    PyDict.keys (modules (self st')) = PyDict.keys (modules (self st)) ++ [name m] ∧
    PyDict.get (name m) (modules (self st')) = Some m ∧
    (∀ k, k ≠ name m →
       PyDict.get k (modules (self st')) = PyDict.get k (modules (self st))) ∧
    trace (world st') = trace (world st) ++
      [Logged {| lvl := INFO; msg := [Lit "Registered module: "; Lit (name m)] |}].
Proof.
  intros Hget. eexists. split; [apply register_eq|]. simpl.
  pose proof Hget as Hnin%get_None.
  assert (Hc : PyDict.contains (name m) (modules (self st)) = false)
    by by apply contains_false.
  rewrite Hc, set_absent by done. split_and!.
  - done.
  - unfold PyDict.keys. by rewrite fmap_app.
  - rewrite <- (set_absent _ m) by done. apply get_set_eq.
  - intros k Hk. rewrite <- (set_absent _ m) by done. by apply get_set_ne.
  - done.
Qed.

Lemma register_new_name_goes_last_witness :
  ∃ st' : St,
    register Demo.b (Demo.pipeline_of [("a", Demo.a); ("x", Demo.x)] true)
      = (Return tt, st') ∧
    PyDict.keys (modules (self st')) = ["a"; "x"; "b"].
Proof.
  destruct (register_new_name_goes_last
              (Demo.pipeline_of [("a", Demo.a); ("x", Demo.x)] true) Demo.b eq_refl)
    as (st' & Hreg & _ & Hkeys & _).
  exists st'. split; [exact Hreg | exact Hkeys].
Defined.

(** X6. Registering a module under a name that is not registered and then
    unregistering that name gives back the registry as it was, the other
    modules in their order; the configuration and the [initialized] flag
    are not touched by either call. *)
Theorem register_then_unregister (st : St) (m : ProcessorModule) :
  PyDict.get (name m) (modules (self st)) = None →
  (unregister (name m) (register m st).2).1 = Return true ∧
  self (unregister (name m) (register m st).2).2 = self st.
Proof.
  intros Hget. pose proof Hget as Hnin%get_None.
  rewrite unregister_eq, register_eq. simpl.
  unfold PyDict.contains. rewrite get_set_eq.
  split; [done|]. simpl. rewrite set_absent, del_app_last by done.
  by destruct st as [[] ?].
Qed.

Lemma register_then_unregister_witness :
  let st := Demo.pipeline_of [("a", Demo.a); ("x", Demo.x)] true in
  self (unregister "b" (register Demo.b st).2).2 = self st.
Proof.
  exact (proj2 (register_then_unregister
                  (Demo.pipeline_of [("a", Demo.a); ("x", Demo.x)] true) Demo.b eq_refl)).
Defined.

(** X7. [register] does not touch the [initialized] flag, and nothing but
    [initialize_all] calls [initialize]. So on an initialized pipeline a
    module registered afterwards is run by [run_module] as it is: its
    [process] is called on whatever attributes the object has, [initialize]
    is called on nothing, and what [process] returns or raises is what
    [run_module] returns or raises. *)
Theorem register_after_initialize_runs_module_unprepared
    (st : St) (m : ProcessorModule) (text : string) (kwargs : Kwargs) :
  initialized (self st) = true →
  can_process m (language_of kwargs) = true →
  let st1 := (register m st).2 in
  let r := run_module (name m) text kwargs st1 in
  initialized (self st1) = true ∧
  r.1 = (process m text kwargs (enter (heap (world st)) m)).1 ∧
  ∃ evs : list Event,
    trace (world r.2) = trace (world st) ++ evs ∧
    called Initialize evs = [] ∧
    called Process evs = [name m].
Proof.
  intros Hinit Hcan st1 r. subst r st1. rewrite register_eq.
  rewrite (run_module_bound _ (name m) m); [|done|simpl; apply get_set_eq].
  rewrite Hcan. cbv zeta. cbn [fst snd self world heap trace initialized].
  split_and!; [done|done|].
  eexists ((_ ++ _) ++ _ ++ _ ++ _). split.
  - rewrite <- (app_assoc (trace (world st))). reflexivity.
  - rewrite !called_app, !called_module_logged.
    destruct (PyDict.contains _ _);
      by destruct (process m text kwargs _).1.
Qed.

Lemma register_after_initialize_runs_module_unprepared_witness :
  let st := Demo.pipeline_of [("a", Demo.a)] true in
  (run_module "x" "hello" ∅ (register Demo.x st).2).1 =
  Raise (MkExn RuntimeError "boom" None).
Proof.
  exact (proj1 (proj2 (register_after_initialize_runs_module_unprepared
                         (Demo.pipeline_of [("a", Demo.a)] true) Demo.x "hello" ∅
                         eq_refl eq_refl))).
Defined.

(** ** [run_all] *)

(** The loop of [run_all] returns whatever the registry holds. *)
Lemma run_all_loop_returns text kwargs language (items : pydict ProcessorModule) :
  ∀ (acc : pydict PyVal) (st : St),
    ∃ (results : pydict PyVal) (evs : list Event) (h' : gmap nat (gmap string PyVal)),
      for_each items acc (run_all_step text kwargs language) st =
        (Return results,
         {| self := self st;
            world := {| heap := h'; trace := trace (world st) ++ evs |} |}) ∧
      called Initialize evs = [] ∧
      (Forall (λ item, can_process item.2 language = false) items →
       results = acc ∧ h' = heap (world st) ∧ called Process evs = []).
Proof.
  induction items as [|[k m] items IH]; intros acc st.
  - exists acc, [], (heap (world st)). simpl. rewrite app_nil_r.
    split_and!; try done. unfold ret. by destruct st as [? []].
  - rewrite for_each_cons.
    unfold run_all_step at 1.
    unfold bind, call_can_process, emit, logger, modify, ret, bind, try_except, call.
    simpl. destruct (can_process m language) eqn:Hcp; simpl.
    + destruct (process m text kwargs (enter (heap (world st)) m)) as [[r|e] ms]; simpl;
        match goal with |- context [for_each items ?a _ ?s] =>
          destruct (IH a s) as (results & evs & h' & Hloop & Hinit & _)
        end;
        rewrite Hloop; simpl; eexists results, _, h'; (split_and!;
          [ rewrite <- !app_assoc; reflexivity
          | simpl; rewrite !called_app, called_module_logged; simpl; exact Hinit
          | intros Hall; apply Forall_cons in Hall as [Hm _]; simpl in Hm; congruence ]).
    + match goal with |- context [for_each items ?a _ ?s] =>
        destruct (IH a s) as (results & evs & h' & Hloop & Hinit & Hnone)
      end.
      rewrite Hloop. simpl. eexists results, _, h'. split_and!.
      * rewrite <- !app_assoc. reflexivity.
      * simpl. exact Hinit.
      * intros Hall. apply Forall_cons in Hall as [_ Hall].
        destruct (Hnone Hall) as (-> & -> & Hproc).
        split_and!; [done|done|]. rewrite !called_app, Hproc. done.
Qed.

(** X8. A [language] option that is present but is not a string (for
    instance [None]) is not replaced by the default, and no module supports
    it: on an initialized pipeline [run_all] then returns the empty mapping,
    whatever is registered; no [process] runs and no attribute changes. *)
Theorem run_all_language_not_a_string
    (st : St) (text : string) (kwargs : Kwargs) (v : PyVal) :
  initialized (self st) = true →
  kwargs !! "language" = Some v →
  (∀ s, v ≠ VStr s) →
  ∃ evs : list Event,
    run_all text kwargs st =
      (Return [],
       {| self := self st;
          world := {| heap := heap (world st); trace := trace (world st) ++ evs |} |}) ∧
    called Process evs = [].
Proof.
  intros Hinit Hlang Hv. rewrite run_all_ready by done.
  destruct (run_all_loop_returns text kwargs (language_of kwargs) (modules (self st)) [] st)
    as (results & evs & h' & Hloop & _ & Hnone).
  destruct Hnone as (-> & -> & Hproc).
  { apply Forall_forall. intros [k m] _. simpl. unfold language_of. rewrite Hlang. simpl.
    destruct v; try done. by destruct (Hv s). }
  by exists evs.
Qed.

Lemma run_all_language_not_a_string_witness :
  (run_all "hello" {["language" := VNone]}
     (Demo.pipeline_of [("a", Demo.a); ("b", Demo.b)] true)).1 = Return [].
Proof.
  assert (Hlang : ({["language" := VNone]} : gmap string PyVal) !! "language" = Some VNone)
    by (vm_compute; reflexivity).
  destruct (run_all_language_not_a_string
              (Demo.pipeline_of [("a", Demo.a); ("b", Demo.b)] true)
              "hello" {["language" := VNone]} VNone eq_refl Hlang)
    as (evs & Hrun & _); [discriminate|].
  exact (f_equal fst Hrun).
Defined.

(** X9. Once a name has been unregistered from an initialized pipeline
    whose registry binds every name once, the module is out of reach:
    [run_module] on the name raises the "not found" [ValueError] and the
    mapping [run_all] returns has no entry under it. *)
Theorem unregistered_module_is_not_run
    (st : St) (module_name text : string) (kwargs : Kwargs) :
  initialized (self st) = true →
  registry_ok (self st) →
  let st1 := (unregister module_name st).2 in
  (run_module module_name text kwargs st1).1 =
    Raise (MkExn ValueError ("Module '" ++ module_name ++ "' not found in pipeline") None) ∧
  ∃ (results : pydict PyVal) (st2 : St),
    run_all text kwargs st1 = (Return results, st2) ∧
    PyDict.get module_name results = None.
Proof.
  intros Hinit Hok st1.
  pose proof (registry_ok_unregister module_name st Hok) as [Hnd1 Hnamed1].
  fold st1 in Hnd1, Hnamed1.
  assert (Hinit1 : initialized (self st1) = true).
  { subst st1. rewrite unregister_eq. by destruct (PyDict.contains _ _). }
  assert (Hgone : PyDict.get module_name (modules (self st1)) = None).
  { subst st1. rewrite unregister_eq. unfold PyDict.contains.
    destruct (PyDict.get module_name (modules (self st))) eqn:Hget; simpl; [|done].
    apply get_del_eq, Hok. }
  split.
  - unfold run_module, bind, gets, raise. rewrite Hinit1. simpl. by rewrite Hgone.
  - destruct (run_all_loop_keys text kwargs (language_of kwargs) (modules (self st1)) [] st1
                Hnd1) as (rs & evs & h' & Hloop & Hkeys & _).
    { intros k _. apply not_elem_of_nil. }
    rewrite app_nil_l in Hloop. eexists _, _. split.
    + rewrite run_all_ready by done. exact Hloop.
    + apply get_None. rewrite Hkeys. intros Hin.
      apply get_None in Hgone. apply Hgone.
      unfold PyDict.keys in *. eapply elem_of_sublist; [exact Hin|].
      apply fmap_sublist, capable_sublist.
Qed.

Lemma unregistered_module_is_not_run_witness :
  let st1 := (unregister "a" (Demo.pipeline_of [("a", Demo.a); ("x", Demo.x)] true)).2 in
  ∃ (results : pydict PyVal) (st2 : St),
    run_all "hello" ∅ st1 = (Return results, st2) ∧ PyDict.get "a" results = None.
Proof.
  assert (Hok : registry_ok
            (self (Demo.pipeline_of [("a", Demo.a); ("x", Demo.x)] true))).
  { split.
    - apply (bool_decide_unpack _). vm_compute. exact I.
    - repeat constructor. }
  exact (proj2 (unregistered_module_is_not_run
                  (Demo.pipeline_of [("a", Demo.a); ("x", Demo.x)] true)
                  "a" "hello" ∅ eq_refl Hok)).
Defined.

(** ** The grammar module *)

Lemma GrammarChecker_initialize_attrs env config ms :
  ∃ ms', GrammarChecker_initialize env config ms = (Return tt, ms') ∧
    self_attrs ms' !! "language" = Some (GrammarChecker_language config) ∧
    self_attrs ms' !! "server_url" =
      Some (config_get (default ∅ config) "server_url" (VStr "http://localhost:8081")).
Proof.
  unfold GrammarChecker_initialize, GrammarChecker_language, try_except, bind, setattr,
    mlog, modify, external, raise, ret.
  simpl. destruct (in_strs _ _); simpl;
    destruct (LanguageTool env _ _); simpl; eexists; (split; [done|]); simpl;
    split; repeat first [ rewrite lookup_insert_eq
                        | rewrite lookup_insert_ne by discriminate ]; done.
Qed.

(** X10. Whatever the configuration says, after [GrammarChecker.initialize]
    the [language] attribute of the module is one of its six supported
    languages: a configured language that is among them is kept, a
    configured value that is not (or is not a string) is replaced by
    ["en-US"], and ["en-US"] is taken when nothing is configured. *)
Theorem GrammarChecker_language_is_supported
    (env : GrammarEnv) (config : option (gmap string PyVal)) (ms : ModSt) :
  ∃ s : string,
    self_attrs (GrammarChecker_initialize env config ms).2 !! "language" = Some (VStr s) ∧
    s ∈ ["en-US"; "en-GB"; "fr-FR"; "de-DE"; "es-ES"; "pt-PT"] ∧
    (∀ s0, default ∅ config !! "language" = Some (VStr s0) →
           s0 ∈ ["en-US"; "en-GB"; "fr-FR"; "de-DE"; "es-ES"; "pt-PT"] → s = s0) ∧
    (∀ v, default ∅ config !! "language" = Some v →
          (∀ s0, v = VStr s0 → s0 ∉ ["en-US"; "en-GB"; "fr-FR"; "de-DE"; "es-ES"; "pt-PT"]) →
          s = "en-US") ∧
    (default ∅ config !! "language" = None → s = "en-US").
Proof.
  destruct (GrammarChecker_initialize_attrs env config ms) as (ms' & -> & Hlang & _).
  simpl. rewrite Hlang. unfold GrammarChecker_language, config_get.
  destruct (default ∅ config !! "language") as [v|] eqn:Hcfg; simpl.
  - destruct (in_strs v GrammarChecker_supported_languages) eqn:Hin.
    + destruct v; try done. simpl in Hin. apply bool_decide_eq_true in Hin.
      exists s. split_and!; [done|done| | |done].
      * by intros ? [= ->].
      * intros v [= <-] Hv. by destruct (Hv s eq_refl).
    + exists "en-US". split_and!; [done| | |done|done].
      * apply list_elem_of_here.
      * intros s0 [= ->] Hs0. simpl in Hin. by apply bool_decide_eq_false in Hin.
  - exists "en-US". split_and!; [done| |done|done|done]. apply list_elem_of_here.
Qed.

Lemma issue_of_read (acc : list PyVal) (m : LTMatch) (issue : PyVal) (ms : ModSt) :
  issue_read m issue → issue_of acc m ms = (Return (acc ++ [issue]), ms).
Proof.
  intros (msg & off & len & rule & reps & Hmsg & Hoff & Hlen & Hrule & Hreps & ->).
  unfold issue_of, bind, external, ret. by rewrite Hmsg, Hoff, Hlen, Hrule, Hreps.
Qed.


Lemma issues_loop_read (matches : list LTMatch) (issues : list PyVal) :
  Forall2 issue_read matches issues →
  ∀ (acc : list PyVal) (ms : ModSt),
    for_each matches acc issue_of ms = (Return (acc ++ issues), ms).
Proof.
  induction 1 as [|m issue matches issues Hm _ IH]; intros acc ms.
  - simpl. by rewrite app_nil_r.
  - rewrite for_each_cons, (issue_of_read acc m issue ms Hm), IH.
    by rewrite <- app_assoc.
Qed.




(** X12. [GrammarChecker.process] on an object [initialize] was never
    called on raises [AttributeError]: the attribute [tool] does not exist
    yet. The answer "no issue, text unchanged" is given only after
    [initialize]. *)
Theorem GrammarChecker_process_before_initialize
    (env : GrammarEnv) (text : string) (kwargs : Kwargs) (ms : ModSt) :
  self_attrs ms !! "tool" = None →
  GrammarChecker_process env text kwargs ms =
    (Raise (MkExn (OtherException "AttributeError")
              "'GrammarChecker' object has no attribute 'tool'" None), ms).
Proof.
  intros Htool. unfold GrammarChecker_process, getattr, bind. by rewrite Htool.
Qed.

Lemma GrammarChecker_process_before_initialize_witness :
  (GrammarChecker_process unreachable "helo" ∅ {| self_attrs := ∅; emitted := [] |}).1 =
  Raise (MkExn (OtherException "AttributeError")
           "'GrammarChecker' object has no attribute 'tool'" None).
Proof.
  exact (f_equal fst
           (GrammarChecker_process_before_initialize unreachable "helo" ∅
              {| self_attrs := ∅; emitted := [] |} eq_refl)).
Defined.

(** X13. When the module has a tool, the check returns matches, every
    attribute of every match can be read and the correction returns,
    [GrammarChecker.process] returns the number of matches, one issue per
    match in the order of the matches, and the corrected text, and changes
    nothing. Each issue holds what was read of its match, with the first
    five replacements at most, in their order. *)
Theorem GrammarChecker_process_reports_issues
    (env : GrammarEnv) (text : string) (kwargs : Kwargs) (ms : ModSt)
    (tool : PyVal) (matches : list LTMatch) (issues : list PyVal) (corrected : string) :
  self_attrs ms !! "tool" = Some tool →
  truthy tool = true →
  tool_check env tool text = Return matches →
  Forall2 (λ (m : LTMatch) (issue : PyVal),
             ∃ (msg off len rule : PyVal) (reps : list PyVal),
               message m = Return msg ∧ offset m = Return off ∧
               errorLength m = Return len ∧ ruleId m = Return rule ∧
               replacements m = Return reps ∧
               issue = VDict [("message", msg); ("offset", off); ("length", len);
                              ("rule_id", rule);
                              ("replacements", VList (take 5 reps))])
    matches issues →
  utils_correct env text matches = Return corrected →
  GrammarChecker_process env text kwargs ms =
    (Return (VDict [("issues_count", VInt (Z.of_nat (length matches)));
                    ("issues", VList issues);
                    ("corrected_text", VStr corrected)]), ms).
Proof.
  intros Htool Htruthy Hcheck Hall Hcorrect.
  unfold GrammarChecker_process, getattr, bind at 1. rewrite Htool, Htruthy. cbn [negb].
  unfold try_except, bind, external. rewrite Hcheck.
  rewrite (issues_loop_read matches issues Hall). rewrite app_nil_l, Hcorrect.
  unfold ret. by rewrite (Forall2_length _ _ _ Hall).
Qed.

Lemma GrammarChecker_process_reports_issues_witness :
  (GrammarChecker_process one_match "helo" ∅
     {| self_attrs := {["tool" := VHandle 1]}; emitted := [] |}).1 =
  Return (VDict [("issues_count", VInt 1);
                 ("issues",
                  VList [VDict [("message", VStr "Possible spelling mistake found.");
                                ("offset", VInt 0); ("length", VInt 4);
                                ("rule_id", VStr "MORFOLOGIK_RULE_EN_US");
                                ("replacements",
                                 VList [VStr "hello"; VStr "help"; VStr "held";
                                        VStr "hell"; VStr "helm"])]]);
                 ("corrected_text", VStr "hello")]).
Proof.
  assert (Htool : ({["tool" := VHandle 1]} : gmap string PyVal) !! "tool"
                  = Some (VHandle 1)) by (vm_compute; reflexivity).
  refine (f_equal fst
            (GrammarChecker_process_reports_issues one_match "helo" ∅
               {| self_attrs := {["tool" := VHandle 1]}; emitted := [] |}
               (VHandle 1) _ _ "hello" Htool eq_refl eq_refl _ eq_refl)).
  constructor; [|constructor].
  eexists _, _, _, _, _. repeat split; reflexivity.
Defined.

(** ** [main.py] *)

Lemma run_all_returns text kwargs st :
  initialized (self st) = true →
  ∃ (results : pydict PyVal) (st' : St),
    run_all text kwargs st = (Return results, st') ∧ self st' = self st.
Proof.
  intros Hinit. rewrite run_all_ready by done.
  destruct (run_all_loop_returns text kwargs (language_of kwargs) (modules (self st)) [] st)
    as (results & evs & h' & Hloop & _).
  by eexists _, _.
Qed.

Lemma run_all_not_ready text kwargs st :
  initialized (self st) = false → run_all text kwargs st = (Raise not_initialized, st).
Proof. intros Hinit. unfold run_all, bind, gets, raise. by rewrite Hinit. Qed.

(** X14. [process_text] of [main.py] never raises. On an initialized
    pipeline it returns the mapping of [run_all] for the given language and
    logs nothing. On a pipeline that is not initialized it returns
    [{"error": "Pipeline not initialized. Call initialize_all() first."}],
    a mapping of the same shape as a result, logs one error record and
    leaves the pipeline as it was. *)
Theorem main_process_text_never_raises (a : App) (text : string) (language : PyVal) :
  ∃ (results : pydict PyVal) (a' : App),
    Main.process_text text language a = (Return results, a') ∧
    if initialized (self (pipe a))
    then run_all text {["language" := language]} (pipe a) = (Return results, pipe a') ∧
         app_log a' = app_log a
    else results = [("error", VStr "Pipeline not initialized. Call initialize_all() first.")] ∧
         pipe a' = pipe a ∧
         app_log a' = app_log a ++
           [{| lvl := ERROR;
               msg := [Lit "Error processing text: ";
                       Lit "Pipeline not initialized. Call initialize_all() first."] |}].
Proof.
  unfold Main.process_text, try_except, in_pipeline.
  destruct (initialized (self (pipe a))) eqn:Hinit.
  - destruct (run_all_returns text {["language" := language]} (pipe a) Hinit)
      as (results & st' & Hrun & _).
    rewrite Hrun. by eexists _, _.
  - unfold run_all, bind, gets, raise. rewrite Hinit. simpl.
    by eexists _, _.
Qed.

Lemma elem_of_set {V} (k : string) (v : V) (d : pydict V) k' v' :
  (k', v') ∈ PyDict.set k v d → (k', v') = (k, v) ∨ (k', v') ∈ d.
Proof.
  induction d as [|[k0 v0] d IH]; simpl.
  - intros ->%list_elem_of_singleton. by left.
  - destruct (decide (k = k0)) as [->|Hne].
    + intros [->|Hin]%elem_of_cons; [by left|]. right. by apply list_elem_of_further.
    + intros [->|Hin]%elem_of_cons; [right; apply list_elem_of_here|].
      destruct (IH Hin) as [?|?]; [by left|]. right. by apply list_elem_of_further.
Qed.

Lemma keys_set_keeps {V} (k : string) (v : V) (d : pydict V) k' :
  k' ∈ PyDict.keys d → k' ∈ PyDict.keys (PyDict.set k v d).
Proof.
  intros Hin. destruct (decide (k ∈ PyDict.keys d)) as [Hk|Hk].
  - by rewrite keys_set_present.
  - rewrite set_absent by done. unfold PyDict.keys in *. rewrite fmap_app.
    apply elem_of_app. by left.
Qed.

Lemma keys_set_has {V} (k : string) (v : V) (d : pydict V) :
  k ∈ PyDict.keys (PyDict.set k v d).
Proof.
  apply dec_stable. intros Hnin%get_None. by rewrite get_set_eq in Hnin.
Qed.

(** One turn of the loop of [create_pipeline]: it returns; a recognized
    name whose class loads is registered, any other changes nothing in the
    pipeline. *)
Lemma load_step_spec load (n : string) (a : App) :
  ∃ a' : App,
    Main.load_step load tt n a = (Return tt, a') ∧
    self (pipe a') =
      {| modules :=
           match PyDict.get n Main.module_info with
           | Some (mod_path, class_name) =>
               match load mod_path class_name with
               | Return m => PyDict.set (name m) m (modules (self (pipe a)))
               | Raise _ => modules (self (pipe a))
               end
           | None => modules (self (pipe a))
           end;
         config := config (self (pipe a));
         initialized := initialized (self (pipe a)) |} ∧
    heap (world (pipe a')) = heap (world (pipe a)).
Proof.
  unfold Main.load_step.
  destruct (PyDict.get n Main.module_info) as [[mod_path class_name]|].
  - unfold try_except, bind, external, in_pipeline, app_logger, modify.
    destruct (load mod_path class_name) as [m|e].
    + rewrite register_eq. simpl. by eexists.
    + simpl. eexists. split; [done|]. simpl. by destruct (pipe a) as [[] ?].
  - unfold app_logger, modify. eexists. split; [done|]. simpl.
    by destruct (pipe a) as [[] ?].
Qed.

Lemma load_loop_spec load (names : list string) :
  ∀ a : App,
    ∃ a' : App,
      for_each names tt (Main.load_step load) a = (Return tt, a') ∧
      initialized (self (pipe a')) = initialized (self (pipe a)) ∧
      config (self (pipe a')) = config (self (pipe a)) ∧
      heap (world (pipe a')) = heap (world (pipe a)) ∧
      (registry_ok (self (pipe a)) → registry_ok (self (pipe a'))) ∧
      (∀ k m, (k, m) ∈ modules (self (pipe a')) →
         (k, m) ∈ modules (self (pipe a)) ∨
         ∃ mod_name mod_path class_name,
           mod_name ∈ names ∧
           PyDict.get mod_name Main.module_info = Some (mod_path, class_name) ∧
           load mod_path class_name = Return m ∧ k = name m) ∧
      (∀ k, k ∈ PyDict.keys (modules (self (pipe a))) →
            k ∈ PyDict.keys (modules (self (pipe a')))) ∧
      (∀ mod_name mod_path class_name m,
         mod_name ∈ names →
         PyDict.get mod_name Main.module_info = Some (mod_path, class_name) →
         load mod_path class_name = Return m →
         name m ∈ PyDict.keys (modules (self (pipe a')))).
Proof.
  induction names as [|n names IH]; intros a.
  - exists a. split_and!; try done.
    + intros k m Hin. by left.
    + intros ???? Hin. by apply elem_of_nil in Hin.
  - rewrite for_each_cons.
    destruct (load_step_spec load n a) as (a1 & Hstep & Hself1 & Hheap1).
    rewrite Hstep.
    destruct (IH a1) as (a' & Hloop & Hinit & Hcfg & Hheap & Hok & Hfrom & Hkeep & Hto).
    rewrite Hself1 in Hinit, Hcfg, Hok, Hfrom, Hkeep.
    cbn [modules config initialized] in Hinit, Hcfg, Hok, Hfrom, Hkeep.
    exists a'. split_and!; try done.
    + congruence.
    + intros [Hnd Hnamed]. apply Hok.
      destruct (PyDict.get n Main.module_info) as [[mod_path class_name]|]; [|by split].
      destruct (load mod_path class_name) as [m|e]; [|by split].
      split; simpl; [by apply NoDup_keys_set | by apply Forall_set].
    + intros k m Hin. destruct (Hfrom k m Hin) as [Hold|Hnew].
      * destruct (PyDict.get n Main.module_info) as [[mod_path class_name]|] eqn:Hinfo;
          [|by left].
        destruct (load mod_path class_name) as [m0|e] eqn:Hload; [|by left].
        apply elem_of_set in Hold as [[= -> ->]|Hold]; [|by left].
        right. exists n, mod_path, class_name.
        split_and!; try done. apply list_elem_of_here.
      * right. destruct Hnew as (mn & mp & cn & Hmn & ? & ? & ?).
        exists mn, mp, cn. split_and!; try done. by apply list_elem_of_further.
    + intros k Hk. apply Hkeep.
      destruct (PyDict.get n Main.module_info) as [[mod_path class_name]|]; [|done].
      destruct (load mod_path class_name) as [m|e]; [|done].
      by apply keys_set_keeps.
    + intros mn mp cn m [->|Hin]%elem_of_cons Hinfo Hload.
      * apply Hkeep. rewrite Hinfo, Hload. apply keys_set_has.
      * by eapply Hto.
Qed.






(** X16. The registry of the pipeline [create_pipeline] builds binds every
    name once, to the module of that name. Every module in it is an
    instance loaded for a name that is enabled and is one of the four
    names [create_pipeline] knows ("grammar", "sentiment", "voice",
    "completion"); an enabled name it does not know registers nothing.
    Conversely a known, enabled name whose class loads has its module's
    name in the registry, whatever failed to load before or after it. *)
Theorem create_pipeline_registry
    (load : string → string → Outcome ProcessorModule) (settings : Main.Settings)
    (log : list LogRecord) (w : World) :
  let enabled := default Main.default_enabled_modules (Main.enabled_modules settings) in
  let p := self (pipe (Main.create_pipeline load settings log w).2) in
  registry_ok p ∧
  (∀ k m, (k, m) ∈ modules p →
     ∃ mod_name mod_path class_name,
       mod_name ∈ enabled ∧
       mod_name ∈ ["grammar"; "sentiment"; "voice"; "completion"] ∧
       PyDict.get mod_name Main.module_info = Some (mod_path, class_name) ∧
       load mod_path class_name = Return m ∧ k = name m) ∧
  (∀ mod_name mod_path class_name m,
     mod_name ∈ enabled →
     PyDict.get mod_name Main.module_info = Some (mod_path, class_name) →
     load mod_path class_name = Return m →
     name m ∈ PyDict.keys (modules p)).
Proof.
  intros enabled p.
  destruct (load_loop_spec load enabled {| app_log := log; pipe := fresh w |})
    as (a1 & Hloop & _ & _ & _ & Hok & Hfrom & _ & Hto).
  assert (Hp : modules p = modules (self (pipe a1))).
  { subst p. unfold Main.create_pipeline. fold enabled. rewrite Hloop.
    unfold in_pipeline.
    pose proof (initialize_all_modules
                  (Some (default ∅ (Main.module_settings settings))) (pipe a1)) as Hmods.
    destruct (initialize_all _ (pipe a1)) as [[[]|e] st']; simpl in *; done. }
  split_and!.
  - eapply registry_ok_modules; [exact Hp|]. apply Hok, registry_ok_fresh.
  - intros k m Hin. rewrite Hp in Hin. destruct (Hfrom k m Hin) as [Hold|Hnew].
    + simpl in Hold. by apply elem_of_nil in Hold.
    + destruct Hnew as (mn & mp & cn & Hmn & Hinfo & Hload & Hk).
      exists mn, mp, cn. split_and!; try done.
      apply get_elem_of in Hinfo. apply (list_elem_of_fmap_2 fst) in Hinfo.
      exact Hinfo.
  - intros mn mp cn m Hmn Hinfo Hload. rewrite Hp. by eapply Hto.
Qed.

(** ** The text route of [server.py] *)

(** X17. A request to [/api/process] with a text and no (or an empty) list
    of modules runs [run_all]. On an initialized pipeline the answer is the
    mapping of [run_all] with status 200, whatever the modules did: a module
    that raises shows as an error entry, not as a failed request. Status 500
    comes only from a mapping [jsonify] cannot serialize, with the message
    of its exception, after every module has run. On a pipeline that is not
    initialized the answer is the "Pipeline not initialized" message with
    status 500, and the pipeline is untouched. *)
Theorem server_process_text_all_modules
    (jsonify : PyVal → Outcome PyVal) (data : Server.Request) (a : App) (text : string) :
  Server.req_text data = Some text →
  Server.req_modules data = None ∨ Server.req_modules data = Some [] →
  let kwargs : gmap string PyVal :=
    {["language" := default (VStr "en-US") (Server.req_language data)]} in
  let failed (e : Exn) (st : St) :=
    Server.respond jsonify (VDict [("error", VStr (exn_str e))]) 500
      {| app_log := app_log a ++
           [{| lvl := ERROR; msg := [Lit "Error processing text: "; Lit (exn_str e)] |}];
         pipe := st |} in
  if initialized (self (pipe a))
  then ∃ (results : pydict PyVal) (st' : St),
         run_all text kwargs (pipe a) = (Return results, st') ∧
         Server.process_text jsonify data a =
           match jsonify (VDict results) with
           | Return body => (Return (body, 200%Z), {| app_log := app_log a; pipe := st' |})
           | Raise e => failed e st'
           end
  else Server.process_text jsonify data a = failed not_initialized (pipe a).
Proof.
  intros Htext Hmods kwargs failed.
  assert (Hbody : Server.process_text jsonify data a =
            try_except
              (results <- in_pipeline (run_all text kwargs) ;;
               Server.respond jsonify (VDict results) 200)
              (λ e,
                 app_logger ERROR [Lit "Error processing text: "; Lit (exn_str e)] ;;;
                 Server.respond jsonify (VDict [("error", VStr (exn_str e))]) 500) a).
  { unfold Server.process_text. rewrite Htext. by destruct Hmods as [-> | ->]. }
  rewrite Hbody.
  destruct (initialized (self (pipe a))) eqn:Hinit.
  - destruct (run_all_returns text kwargs (pipe a) Hinit) as (results & st' & Hrun & _).
    exists results, st'. split; [done|].
    unfold try_except, bind at 1 2, in_pipeline. rewrite Hrun.
    unfold Server.respond, bind, external, ret.
    by destruct (jsonify (VDict results)).
  - unfold try_except, bind at 1 2, in_pipeline.
    rewrite run_all_not_ready by done. done.
Qed.

Lemma server_process_text_all_modules_witness :
  let data := {| Server.req_text := Some "hello"; Server.req_language := None;
                 Server.req_modules := None |} in
  let a := {| app_log := [];
              pipe := Demo.pipeline_of [("x", Demo.x); ("a", Demo.a)] true |} in
  (Server.process_text Return data a).1 =
  Return (VDict [("x", VDict [("error", VStr "boom")]);
                 ("a", VDict [("text", VStr "hello")])], 200%Z).
Proof.
  pose proof (server_process_text_all_modules Return
                {| Server.req_text := Some "hello"; Server.req_language := None;
                   Server.req_modules := None |}
                {| app_log := [];
                   pipe := Demo.pipeline_of [("x", Demo.x); ("a", Demo.a)] true |}
                "hello" eq_refl (or_introl eq_refl)) as (results & st' & Hrun & Hresp).
  simpl. rewrite Hresp.
  exact (f_equal (λ r, Return (VDict r.1, 200%Z))
           (eq_sym (f_equal (λ r, match r.1 with Return x => (x, r.2) | _ => ([], r.2) end)
                      Hrun))).
Defined.

Lemma server_process_text_selected jsonify data a text n ns :
  Server.req_text data = Some text →
  Server.req_modules data = Some (n :: ns) →
  Server.process_text jsonify data a =
  try_except
    (results <- for_each (n :: ns) []
                  (Server.select_step text
                     (default (VStr "en-US") (Server.req_language data))) ;;
     Server.respond jsonify (VDict results) 200)
    (λ e,
       app_logger ERROR [Lit "Error processing text: "; Lit (exn_str e)] ;;;
       Server.respond jsonify (VDict [("error", VStr (exn_str e))]) 500) a.
Proof. intros Htext Hmods. unfold Server.process_text. by rewrite Htext, Hmods. Qed.

Lemma select_step_registered text language results n a :
  PyDict.contains n (modules (self (pipe a))) = true →
  Server.select_step text language results n a =
  match run_module n text {["language" := language]} (pipe a) with
  | (Return r, st') =>
      (Return (PyDict.set n r results), {| app_log := app_log a; pipe := st' |})
  | (Raise e, st') => (Raise e, {| app_log := app_log a; pipe := st' |})
  end.
Proof.
  intros Hc. unfold Server.select_step, bind, in_pipeline, gets. cbv beta iota.
  rewrite Hc. cbn [pipe app_log].
  by destruct (run_module n text _ (pipe a)) as [[r|e] st'].
Qed.

(** X18. When a request names the modules to run, they are run one after
    the other through [run_module], with no fault isolation: as soon as a
    registered module raises (its [process] fails, or the pipeline is not
    initialized), the request is answered with status 500 and the message of
    that exception alone. The results gathered before it are dropped and
    the modules named after it are not run. *)
Theorem server_selected_module_failure
    (jsonify : PyVal → Outcome PyVal) (data : Server.Request) (a : App) (text : string)
    (pre post : list string) (n : string)
    (acc : pydict PyVal) (a1 : App) (e : Exn) (st2 : St) :
  Server.req_text data = Some text →
  Server.req_modules data = Some (pre ++ n :: post) →
  let language := default (VStr "en-US") (Server.req_language data) in
  for_each pre [] (Server.select_step text language) a = (Return acc, a1) →
  PyDict.contains n (modules (self (pipe a1))) = true →
  run_module n text {["language" := language]} (pipe a1) = (Raise e, st2) →
  Server.process_text jsonify data a =
    Server.respond jsonify (VDict [("error", VStr (exn_str e))]) 500
      {| app_log := app_log a1 ++
           [{| lvl := ERROR; msg := [Lit "Error processing text: "; Lit (exn_str e)] |}];
         pipe := st2 |}.
Proof.
  intros Htext Hmods language Hpre Hcontains Hrun.
  assert (Hne : ∃ n0 ns, pre ++ n :: post = n0 :: ns).
  { destruct pre; simpl; by eexists _, _. }
  destruct Hne as (n0 & ns & Hne).
  rewrite (server_process_text_selected jsonify data a text n0 ns) by congruence.
  rewrite <- Hne. unfold try_except, bind at 1 2.
  rewrite for_each_app. fold language. rewrite Hpre, for_each_cons.
  rewrite select_step_registered by done. rewrite Hrun. done.
Qed.

Lemma server_selected_module_failure_witness :
  let data := {| Server.req_text := Some "hello"; Server.req_language := None;
                 Server.req_modules := Some ["a"; "x"; "b"] |} in
  let a := {| app_log := [];
              pipe := Demo.pipeline_of
                        [("a", Demo.a); ("x", Demo.x); ("b", Demo.b)] true |} in
  (Server.process_text Return data a).1 =
  Return (VDict [("error", VStr "boom")], 500%Z).
Proof.
  exact (f_equal fst
           (server_selected_module_failure Return
              {| Server.req_text := Some "hello"; Server.req_language := None;
                 Server.req_modules := Some ["a"; "x"; "b"] |}
              {| app_log := [];
                 pipe := Demo.pipeline_of
                           [("a", Demo.a); ("x", Demo.x); ("b", Demo.b)] true |}
              "hello" ["a"] ["b"] "x" _ _ (MkExn RuntimeError "boom" None) _
              eq_refl eq_refl eq_refl eq_refl eq_refl)).
Defined.

Lemma select_step_unregistered text language results n a :
  PyDict.get n (modules (self (pipe a))) = None →
  Server.select_step text language results n a =
  (Return (PyDict.set n (VDict [("error", VStr ("Module " ++ n ++ " not found"))]) results),
   a).
Proof.
  intros Hget. unfold Server.select_step, bind, in_pipeline, gets, PyDict.contains.
  cbv beta iota. rewrite Hget. unfold ret. by destruct a.
Qed.

(** X19. A requested name that is not registered is answered in place,
    with [{"error": "Module <name> not found"}] under that name, and the
    pipeline is not consulted for it. So a request that names only
    unregistered modules gets status 200 and one such entry per name, the
    pipeline and the log are unchanged, and this holds also when the
    pipeline is not initialized. *)
Theorem server_unknown_modules_are_reported
    (jsonify : PyVal → Outcome PyVal) (data : Server.Request) (a : App) (text : string)
    (n : string) (ns : list string) :
  Server.req_text data = Some text →
  Server.req_modules data = Some (n :: ns) →
  Forall (λ k, PyDict.get k (modules (self (pipe a))) = None) (n :: ns) →
  let results :=
    foldl (λ acc k,
             PyDict.set k (VDict [("error", VStr ("Module " ++ k ++ " not found"))]) acc)
      [] (n :: ns) in
  (∀ k, k ∈ n :: ns →
        PyDict.get k results =
        Some (VDict [("error", VStr ("Module " ++ k ++ " not found"))])) ∧
  Server.process_text jsonify data a =
    match jsonify (VDict results) with
    | Return body => (Return (body, 200%Z), a)
    | Raise e =>
        Server.respond jsonify (VDict [("error", VStr (exn_str e))]) 500
          {| app_log := app_log a ++
               [{| lvl := ERROR;
                   msg := [Lit "Error processing text: "; Lit (exn_str e)] |}];
             pipe := pipe a |}
    end.
Proof.
  intros Htext Hmods Hall results.
  set (entry := λ k : string,
         VDict [("error", VStr ("Module " ++ k ++ " not found"))]) in *.
  assert (Hloop : ∀ (l : list string) (acc : pydict PyVal),
            Forall (λ k, PyDict.get k (modules (self (pipe a))) = None) l →
            for_each l acc
              (Server.select_step text (default (VStr "en-US") (Server.req_language data))) a
            = (Return (foldl (λ acc k, PyDict.set k (entry k) acc) acc l), a)).
  { induction l as [|k l IH]; intros acc Hl; [done|].
    apply Forall_cons in Hl as [Hk Hl].
    rewrite for_each_cons, select_step_unregistered by done. by apply IH. }
  assert (Hget : ∀ (l : list string) (acc : pydict PyVal) k,
            k ∈ l ∨ PyDict.get k acc = Some (entry k) →
            PyDict.get k (foldl (λ acc k, PyDict.set k (entry k) acc) acc l)
            = Some (entry k)).
  { induction l as [|k0 l IH]; intros acc k [Hin|Hacc]; simpl.
    - by apply elem_of_nil in Hin.
    - done.
    - apply IH. apply elem_of_cons in Hin as [->|Hin]; [right; apply get_set_eq|by left].
    - apply IH. right. destruct (decide (k0 = k)) as [->|Hne]; [apply get_set_eq|].
      by rewrite get_set_ne. }
  split.
  - intros k Hk. apply Hget. by left.
  - rewrite (server_process_text_selected jsonify data a text n ns) by done.
    unfold try_except, bind at 1 2. rewrite Hloop by done. subst results.
    unfold Server.respond at 1, bind at 1, external at 1, ret.
    by destruct (jsonify (VDict _)).
Qed.

Lemma server_unknown_modules_are_reported_witness :
  let data := {| Server.req_text := Some "hello"; Server.req_language := None;
                 Server.req_modules := Some ["nope"] |} in
  let a := {| app_log := []; pipe := Demo.pipeline_of [("a", Demo.a)] false |} in
  (Server.process_text Return data a).1 =
  Return (VDict [("nope", VDict [("error", VStr "Module nope not found")])], 200%Z).
Proof.
  assert (Hall : Forall (λ k, PyDict.get k (modules (self (Demo.pipeline_of
                    [("a", Demo.a)] false))) = None) ["nope"]).
  { repeat constructor. }
  exact (f_equal fst
           (proj2 (server_unknown_modules_are_reported Return
                     {| Server.req_text := Some "hello"; Server.req_language := None;
                        Server.req_modules := Some ["nope"] |}
                     {| app_log := []; pipe := Demo.pipeline_of [("a", Demo.a)] false |}
                     "hello" "nope" [] eq_refl eq_refl Hall))).
Defined.

Lemma GrammarChecker_language_is_supported_witness :
  ∃ s : string,
    self_attrs (GrammarChecker_initialize unreachable
                  (Some {["language" := VStr "it-IT"]})
                  {| self_attrs := ∅; emitted := [] |}).2 !! "language" = Some (VStr s) ∧
    s ∈ GrammarChecker_supported_languages.
Proof.
  destruct (GrammarChecker_language_is_supported unreachable
              (Some {["language" := VStr "it-IT"]}) {| self_attrs := ∅; emitted := [] |})
    as (s & Hlang & Hs & _).
  exists s. split; [exact Hlang | exact Hs].
Defined.

Lemma create_pipeline_registry_witness :
  let load := λ (mod_path class_name : string),
                if bool_decide (class_name = "GrammarChecker")
                then Return (GrammarChecker unreachable 1)
                else Raise (MkExn ModuleNotFoundError "No module named 'nltk'" None) in
  let settings := {| Main.enabled_modules := Some ["summarize"; "sentiment"; "grammar"];
                     Main.module_settings := None |} in
  "grammar" ∈ PyDict.keys (modules (self (pipe (Main.create_pipeline load settings []
                                                  Demo.empty_world).2))).
Proof.
  refine (proj2 (proj2 (create_pipeline_registry
            (λ (mod_path class_name : string),
               if bool_decide (class_name = "GrammarChecker")
               then Return (GrammarChecker unreachable 1)
               else Raise (MkExn ModuleNotFoundError "No module named 'nltk'" None))
            {| Main.enabled_modules := Some ["summarize"; "sentiment"; "grammar"];
               Main.module_settings := None |} [] Demo.empty_world))
            "grammar" "modules.grammar" "GrammarChecker" (GrammarChecker unreachable 1)
            _ eq_refl eq_refl).
  simpl. apply list_elem_of_further, list_elem_of_further, list_elem_of_here.
Defined.

(** ** What [run_all] leaves alone *)

Lemma run_all_loop_frame text kwargs language (items : pydict ProcessorModule) :
  ∀ (acc : pydict PyVal) (st : St) (i : nat),
    i ∉ obj_id <$> PyDict.values (capable language items) →
    heap (world (for_each items acc (run_all_step text kwargs language) st).2) !! i
    = heap (world st) !! i.
Proof.
  induction items as [|[k m] items IH]; intros acc st i Hi; [done|].
  rewrite for_each_cons.
  destruct (run_all_step_spec text kwargs language acc k m st)
    as (evs & h1 & Hstep & _ & _ & Hframe).
  rewrite Hstep. rewrite capable_cons in Hi.
  destruct (can_process m language) eqn:Hcp.
  - unfold PyDict.values in Hi. rewrite !fmap_cons in Hi.
    apply not_elem_of_cons in Hi as [Hne Hi]. simpl in Hne.
    rewrite IH by done. simpl. by apply Hframe.
  - rewrite IH by done. simpl.
    assert (Hsame : h1 = heap (world st)); [|by rewrite Hsame].
    revert Hstep. unfold run_all_step, bind, call_can_process, emit, logger, modify, ret.
    simpl. rewrite Hcp. simpl. intros Heq.
    apply (f_equal (λ r, heap (world r.2))) in Heq. simpl in Heq. by symmetry.
Qed.

(** X20. [run_all] writes the attributes of the modules it runs and of
    nothing else: the attributes of an object that is not a registered
    module supporting the language (a module skipped for its language, a
    module that is not registered) are after the call what they were
    before, and [initialize] is called on nothing. *)
Theorem run_all_touches_only_capable_modules
    (st : St) (text : string) (kwargs : Kwargs) (i : nat) :
  i ∉ obj_id <$> PyDict.values (capable (language_of kwargs) (modules (self st))) →
  heap (world (run_all text kwargs st).2) !! i = heap (world st) !! i ∧
  ∃ evs : list Event,
    trace (world (run_all text kwargs st).2) = trace (world st) ++ evs ∧
    called Initialize evs = [].
Proof.
  intros Hi. destruct (initialized (self st)) eqn:Hinit.
  - rewrite run_all_ready by done. split.
    + by apply run_all_loop_frame.
    + destruct (run_all_loop_returns text kwargs (language_of kwargs)
                  (modules (self st)) [] st) as (results & evs & h' & Hloop & Hcalled & _).
      rewrite Hloop. by exists evs.
  - rewrite run_all_not_ready by done. split; [done|]. exists []. by rewrite app_nil_r.
Qed.

Lemma run_all_touches_only_capable_modules_witness :
  let st := run_ops [Op_register Demo.a; Op_register Demo.b; Op_initialize_all None]
              (fresh Demo.empty_world) in
  heap (world (run_all "hello" ∅ st).2) !! 2 = heap (world st) !! 2.
Proof.
  refine (proj1 (run_all_touches_only_capable_modules
                   (run_ops [Op_register Demo.a; Op_register Demo.b; Op_initialize_all None]
                      (fresh Demo.empty_world)) "hello" ∅ 2 _)).
  vm_compute. intros H. repeat (inversion H as [|? ? ? H']; subst; clear H; rename H' into H).
Defined.
